(** * Power Scouter: the session/set logging and reporting core of [app.py]

    A shallow embedding of the persistence functions, the "Log Workout"
    handlers and the two reports of [src/app.py], and the properties of the
    specification that are settled against them.

    Modelling conventions.
    - SQLite [INTEGER] columns and Python ints are [Z]; [TEXT] is [string].
    - A [REAL] column and a Python float input are exact rationals ([Qc]):
      every finite double is a rational, and the rounding of double
      arithmetic is outside this model.  The result of a pandas float
      division, which can be infinite or not-a-number, is a [float64].
    - The SQLite file is a [database] record of tables (lists of rows, in
      rowid order).  A [connect ... commit ... close] block is one
      transaction: it either applies all its statements or raises
      [sqlite3.Error] and leaves the file untouched.  Which transactions
      raise is decided by the environment, modelled as the [faults] schedule
      of the [world].
    - [st.session_state] is the [session_state] record; the Python dict
      [workout_log] is an insertion-ordered association list. *)

From Stdlib Require Import ZArith QArith Qcanon List String Ascii Bool Lia
  Permutation Sorted.
From Stdlib Require OrderedTypeEx.
Import ListNotations.

Local Open Scope Z_scope.

(** ** Schema (see [init_db] and [upgrade_schema]) *)

Record user_row := {
  u_id : Z;
  u_username : string;
  u_password_hash : string;
  u_is_admin : Z;
  u_age : option Z;
  u_weight_kg : option Qc;
  u_height_cm : option Qc;
  u_gender : option string
}.

Record category_row := { c_id : Z; c_name : string }.

Record exercise_row := {
  e_id : Z;
  e_name : string;
  e_description : string
}.

Record exercise_category_row := { ec_exercise_id : Z; ec_category_id : Z }.

Record session_row := {
  s_id : Z;
  s_user_id : Z;
  s_name : string;
  s_date : string;
  s_notes : string
}.

Record set_row := {
  ws_id : Z;
  ws_user_id : Z;
  ws_session_id : Z;
  ws_exercise_id : Z;
  ws_weight : Qc;
  ws_reps : Z;
  ws_set_number : Z;
  ws_rpe_rating : Z
}.

(** [ws_sequence] is the [sqlite_sequence] entry of [workout_sets]
    ([AUTOINCREMENT]): the largest id handed out so far. *)
Record database := {
  users : list user_row;
  categories : list category_row;
  exercises : list exercise_row;
  exercise_categories : list exercise_category_row;
  sessions : list session_row;
  workout_sets : list set_row;
  ws_sequence : Z
}.

Definition with_workout_sets (d : database) (rows : list set_row) (sq : Z)
  : database :=
  {| users := users d; categories := categories d; exercises := exercises d;
     exercise_categories := exercise_categories d; sessions := sessions d;
     workout_sets := rows; ws_sequence := sq |}.

Definition with_sessions (d : database) (rows : list session_row) : database :=
  {| users := users d; categories := categories d; exercises := exercises d;
     exercise_categories := exercise_categories d; sessions := rows;
     workout_sets := workout_sets d; ws_sequence := ws_sequence d |}.

(** ** The storage monad: transactions that may raise *)

Record world := { db : database; faults : list bool }.

Inductive outcome (A : Type) : Type :=
| Returned (a : A) (w : world)
| Raised (w : world).
Arguments Returned {A} a w.
Arguments Raised {A} w.

Definition M (A : Type) : Type := world -> outcome A.

Definition ret {A} (a : A) : M A := fun w => Returned a w.

Definition bind {A B} (m : M A) (k : A -> M B) : M B :=
  fun w => match m w with
           | Returned a w' => k a w'
           | Raised w' => Raised w'
           end.

Notation "x <- m ;; k" := (bind m (fun x => k))
  (at level 61, m at next level, right associativity).
Notation "m ;;; k" := (bind m (fun _ => k))
  (at level 61, right associativity).

Definition final_world {A} (o : outcome A) : world :=
  match o with Returned _ w => w | Raised w => w end.

Definition returned {A} (o : outcome A) : bool :=
  match o with Returned _ _ => true | Raised _ => false end.

(** One [connect; execute...; commit; close] block.  The head of the fault
    schedule says whether this transaction raises; an exhausted schedule
    means the engine no longer fails. *)
Definition transact (f : database -> database) : M unit :=
  fun w => match faults w with
           | true :: fs => Raised {| db := db w; faults := fs |}
           | false :: fs => Returned tt {| db := f (db w); faults := fs |}
           | [] => Returned tt {| db := f (db w); faults := [] |}
           end.

(** A Python [for x in xs: body(x)] whose body may raise. *)
Fixpoint for_each {A} (xs : list A) (body : A -> M unit) : M unit :=
  match xs with
  | [] => ret tt
  | x :: xs' => body x ;;; for_each xs' body
  end.

(** [enumerate(xs, start)] *)
Fixpoint enumerate {A} (start : Z) (xs : list A) : list (Z * A) :=
  match xs with
  | [] => []
  | x :: xs' => (start, x) :: enumerate (start + 1) xs'
  end.

(** ** Workout-set persistence *)

(** The row an [INSERT INTO workout_sets] creates: the id is the next value
    of the table's sequence. *)
Definition insert_workout_set
  (user_id session_id exercise_id : Z) (weight : Qc)
  (reps set_number rpe_rating : Z) (d : database) : database :=
  let new_id := ws_sequence d + 1 in
  with_workout_sets d
    (workout_sets d ++
       [{| ws_id := new_id; ws_user_id := user_id;
           ws_session_id := session_id; ws_exercise_id := exercise_id;
           ws_weight := weight; ws_reps := reps;
           ws_set_number := set_number; ws_rpe_rating := rpe_rating |}])
    new_id.

Definition log_set (user_id session_id exercise_id : Z) (weight : Qc)
  (reps set_number rpe_rating : Z) : M unit :=
  transact (insert_workout_set user_id session_id exercise_id weight reps
              set_number rpe_rating).

(** [DELETE FROM workout_sets WHERE session_id = ?] followed by
    [DELETE FROM sessions WHERE id = ?], under one commit. *)
Definition delete_session (session_id : Z) : M unit :=
  transact (fun d =>
    let d1 := with_workout_sets d
                (filter (fun r => negb (ws_session_id r =? session_id))
                   (workout_sets d))
                (ws_sequence d) in
    with_sessions d1
      (filter (fun s => negb (s_id s =? session_id)) (sessions d1))).

Definition mem_Z (x : Z) (xs : list Z) : bool := existsb (Z.eqb x) xs.

(** [if not set_ids: return], else one [DELETE ... WHERE id IN (...)]. *)
Definition delete_workout_sets (set_ids : list Z) : M unit :=
  match set_ids with
  | [] => ret tt
  | _ :: _ =>
      transact (fun d =>
        with_workout_sets d
          (filter (fun r => negb (mem_Z (ws_id r) set_ids)) (workout_sets d))
          (ws_sequence d))
  end.

(** ** Session state of the "Log Workout" tab *)

(** A buffered set: [(total_weight, reps, rpe)]. *)
Definition set_entry : Type := (Qc * Z * Z)%type.

Record session_state := {
  user_id : Z;
  current_session_id : Z;
  workout_log : list (Z * list set_entry);
  current_exercise : option Z;
  bodyweight_toggle : bool
}.

(** Python dict operations on the insertion-ordered association list. *)
Fixpoint dict_get {V} (k : Z) (d : list (Z * V)) : option V :=
  match d with
  | [] => None
  | (k', v) :: d' => if k' =? k then Some v else dict_get k d'
  end.

(** [d[k] = v]: an existing key keeps its position, a new key goes last. *)
Fixpoint dict_set {V} (k : Z) (v : V) (d : list (Z * V)) : list (Z * V) :=
  match d with
  | [] => [(k, v)]
  | (k', v') :: d' =>
      if k' =? k then (k, v) :: d' else (k', v') :: dict_set k v d'
  end.

(** [d.get(k, [])] *)
Definition dict_get_list {V} (k : Z) (d : list (Z * list V)) : list V :=
  match dict_get k d with Some v => v | None => [] end.

Inductive notice :=
| st_error (msg : string)
| st_warning (msg : string)
| st_success (msg : string)
| st_rerun.

(** The two validation failures of the "Add Set" button. *)
Definition MissingBodyweight : notice :=
  st_error "Please set your body weight in profile first.".
Definition InvalidReps : notice := st_error "Reps must be at least 1.".

Definition set_workout_log (st : session_state) (log : list (Z * list set_entry))
  : session_state :=
  {| user_id := user_id st; current_session_id := current_session_id st;
     workout_log := log; current_exercise := current_exercise st;
     bodyweight_toggle := bodyweight_toggle st |}.

Definition set_bodyweight_toggle (st : session_state) (b : bool)
  : session_state :=
  {| user_id := user_id st; current_session_id := current_session_id st;
     workout_log := workout_log st; current_exercise := current_exercise st;
     bodyweight_toggle := b |}.

(** The reset done after a save, a delete or a session switch. *)
Definition reset_log (st : session_state) : session_state :=
  {| user_id := user_id st; current_session_id := current_session_id st;
     workout_log := []; current_exercise := None;
     bodyweight_toggle := false |}.

(** [get_user_profile(user_id)['weight_kg']]: the first user row with that
    id, [None] when there is no such row or the column is NULL. *)
Definition profile_weight_kg (d : database) (uid : Z) : option Qc :=
  match find (fun u => u_id u =? uid) (users d) with
  | Some u => u_weight_kg u
  | None => None
  end.

(** [profile['weight_kg'] if profile['weight_kg'] is not None else 0.0] *)
Definition profile_weight (d : database) (uid : Z) : Qc :=
  match profile_weight_kg d uid with Some w => w | None => 0%Qc end.

Definition Qc_eqb (a b : Qc) : bool := Qeq_bool a b.

(** Exercise selector: a newly selected exercise gets an empty list. *)
Definition select_exercise (st : session_state) (selected_exercise_id : Z)
  : session_state :=
  match current_exercise st with
  | Some cur =>
      if cur =? selected_exercise_id then st
      else
        {| user_id := user_id st; current_session_id := current_session_id st;
           workout_log :=
             match dict_get selected_exercise_id (workout_log st) with
             | Some _ => workout_log st
             | None => dict_set selected_exercise_id [] (workout_log st)
             end;
           current_exercise := Some selected_exercise_id;
           bodyweight_toggle := false |}
  | None =>
      {| user_id := user_id st; current_session_id := current_session_id st;
         workout_log :=
           match dict_get selected_exercise_id (workout_log st) with
           | Some _ => workout_log st
           | None => dict_set selected_exercise_id [] (workout_log st)
           end;
         current_exercise := Some selected_exercise_id;
         bodyweight_toggle := false |}
  end.

(** The "Add Set" button, with the widget values of this run. *)
Definition add_set (d : database) (st : session_state)
  (selected_exercise_id : Z) (bodyweight : bool) (added_weight : Qc)
  (reps rpe : Z) : notice * session_state :=
  let st := set_bodyweight_toggle st bodyweight in
  let sets_list := dict_get_list selected_exercise_id (workout_log st) in
  let profile_weight := profile_weight d (user_id st) in
  let total_weight :=
    if bodyweight then (profile_weight + added_weight)%Qc else added_weight in
  if bodyweight && Qc_eqb profile_weight 0%Qc then (MissingBodyweight, st)
  else if reps <=? 0 then (InvalidReps, st)
  else
    (st_rerun,
     set_workout_log st
       (dict_set selected_exercise_id
          (sets_list ++ [(total_weight, reps, rpe)]) (workout_log st))).

(** "Duplicate Last Set" and "Clear Sets for This Exercise" are offered only
    when the list is not empty. *)
Definition duplicate_last_set (st : session_state) (selected_exercise_id : Z)
  : session_state :=
  let sets_list := dict_get_list selected_exercise_id (workout_log st) in
  match rev sets_list with
  | [] => st
  | last :: _ =>
      set_workout_log st
        (dict_set selected_exercise_id (sets_list ++ [last]) (workout_log st))
  end.

Definition clear_sets (st : session_state) (selected_exercise_id : Z)
  : session_state :=
  match dict_get_list selected_exercise_id (workout_log st) with
  | [] => st
  | _ :: _ =>
      set_workout_log st (dict_set selected_exercise_id [] (workout_log st))
  end.

(** The "Save Entire Workout" button.  An exception raised by [log_set]
    leaves the handler before the buffer is reset. *)
Definition save_entire_workout (st : session_state)
  : M (notice * session_state) :=
  match workout_log st with
  | [] => ret (st_warning "No sets to save.", st)
  | _ :: _ =>
      for_each (workout_log st) (fun '(ex_id, sets) =>
        for_each (enumerate 1 sets) (fun '(set_num, (w, r, rpe)) =>
          log_set (user_id st) (current_session_id st) ex_id w r set_num rpe))
      ;;; ret (st_success "Workout saved!", reset_log st)
  end.

(** ** Query helpers: ORDER BY, DISTINCT, GROUP BY *)

Fixpoint insert_sorted {A} (leb : A -> A -> bool) (x : A) (l : list A)
  : list A :=
  match l with
  | [] => [x]
  | y :: l' => if leb x y then x :: l else y :: insert_sorted leb x l'
  end.

(** [ORDER BY], as a stable sort of the rows in table order. *)
Definition order_by {A} (leb : A -> A -> bool) (l : list A) : list A :=
  fold_right (insert_sorted leb) [] l.

(** [SELECT DISTINCT]: the first occurrence of every row. *)
Fixpoint distinct {A} (eqb : A -> A -> bool) (l : list A) : list A :=
  match l with
  | [] => []
  | x :: l' => x :: filter (fun y => negb (eqb x y)) (distinct eqb l')
  end.

(** pandas [groupby(key)]: the distinct keys in sorted order, each with its
    rows in frame order. *)
Definition group_by {A} (key : A -> string) (rows : list A)
  : list (string * list A) :=
  map (fun k => (k, filter (fun r => String.eqb (key r) k) rows))
    (order_by String.leb (distinct String.eqb (map key rows))).

(** ** Numbers of the reports *)

Definition Z2Qc (z : Z) : Qc := Q2Qc (inject_Z z).

(** A value of a pandas float64 column. *)
Inductive float64 :=
| Finite (q : Qc)
| PosInf
| NegInf
| NaN.

(** Float division of a finite value by an integer column entry: a zero
    divisor gives an infinity of the sign of the numerator, or not-a-number
    for 0/0; no exception is raised. *)
Definition float_div (num : Qc) (den : Z) : float64 :=
  if den =? 0 then
    match (num ?= 0)%Qc with
    | Eq => NaN
    | Gt => PosInf
    | Lt => NegInf
    end
  else Finite (num / Z2Qc den)%Qc.

(** [weight * 36 / (37 - reps)] *)
Definition one_rm (weight : Qc) (reps : Z) : float64 :=
  float_div (weight * Z2Qc 36)%Qc (37 - reps).

(** [weight * reps] *)
Definition volume_load (weight : Qc) (reps : Z) : Qc :=
  (weight * Z2Qc reps)%Qc.

Definition Qc_leb (a b : Qc) : bool :=
  match (a ?= b)%Qc with Gt => false | _ => true end.

(** The larger of two column values, not-a-number being skipped. *)
Definition float_max (a b : float64) : float64 :=
  match a, b with
  | NaN, _ => b
  | _, NaN => a
  | PosInf, _ | _, PosInf => PosInf
  | NegInf, _ => b
  | _, NegInf => a
  | Finite x, Finite y => if Qc_leb x y then b else a
  end.

(** [Series.max()] (skipna): not-a-number only when nothing else is there. *)
Definition series_max (xs : list float64) : float64 :=
  fold_right float_max NaN xs.

Definition sum_Qc (xs : list Qc) : Qc := fold_right Qcplus 0%Qc xs.
Definition sum_Z (xs : list Z) : Z := fold_right Z.add 0 xs.

(** ** Read queries over workout sets *)

(** A row of [SELECT ws.*, e.name as exercise_name, s.name as session_name,
    s.date as session_date]. *)
Record user_set_row := {
  us_set : set_row;
  us_exercise_name : string;
  us_session_name : string;
  us_session_date : string
}.

(** A row of [SELECT ws.*, e.name as exercise_name]. *)
Record session_set_row := {
  ss_set : set_row;
  ss_exercise_name : string
}.

Definition join_user_sets (d : database) : list user_set_row :=
  flat_map (fun ws =>
    flat_map (fun e =>
      if ws_exercise_id ws =? e_id e then
        flat_map (fun s =>
          if ws_session_id ws =? s_id s then
            [{| us_set := ws; us_exercise_name := e_name e;
                us_session_name := s_name s; us_session_date := s_date s |}]
          else [])
          (sessions d)
      else [])
      (exercises d))
    (workout_sets d).

Definition by_date_number (a b : user_set_row) : bool :=
  match String.compare (us_session_date a) (us_session_date b) with
  | Lt => true
  | Gt => false
  | Eq => ws_set_number (us_set a) <=? ws_set_number (us_set b)
  end.

Definition by_date_name_number (a b : user_set_row) : bool :=
  match String.compare (us_session_date a) (us_session_date b) with
  | Lt => true
  | Gt => false
  | Eq =>
      match String.compare (us_exercise_name a) (us_exercise_name b) with
      | Lt => true
      | Gt => false
      | Eq => ws_set_number (us_set a) <=? ws_set_number (us_set b)
      end
  end.

(** [if exercise_id:] is false for [None] and for [0]. *)
Definition get_user_workout_sets (d : database) (uid : Z)
  (exercise_id : option Z) : list user_set_row :=
  match exercise_id with
  | Some ex =>
      if ex =? 0 then
        order_by by_date_name_number
          (filter (fun r => ws_user_id (us_set r) =? uid) (join_user_sets d))
      else
        order_by by_date_number
          (filter (fun r => (ws_user_id (us_set r) =? uid)
                            && (ws_exercise_id (us_set r) =? ex))
             (join_user_sets d))
  | None =>
      order_by by_date_name_number
        (filter (fun r => ws_user_id (us_set r) =? uid) (join_user_sets d))
  end.

Definition join_session_sets (d : database) : list session_set_row :=
  flat_map (fun ws =>
    flat_map (fun e =>
      if ws_exercise_id ws =? e_id e then
        [{| ss_set := ws; ss_exercise_name := e_name e |}]
      else [])
      (exercises d))
    (workout_sets d).

Definition by_name_number (a b : session_set_row) : bool :=
  match String.compare (ss_exercise_name a) (ss_exercise_name b) with
  | Lt => true
  | Gt => false
  | Eq => ws_set_number (ss_set a) <=? ws_set_number (ss_set b)
  end.

Definition get_workout_sets_by_session (d : database) (session_id : Z)
  : list session_set_row :=
  order_by by_name_number
    (filter (fun r => ws_session_id (ss_set r) =? session_id)
       (join_session_sets d)).

(** ** The "By Exercise" report *)

Record exercise_report := {
  one_rm_column : list float64;          (* data['1RM'] *)
  daily_max : list (string * float64);   (* the plotted 1RM series *)
  volume_load_column : list Qc;          (* data['volume_load'] *)
  daily_volume_load : list (string * Qc)
}.

Definition row_one_rm (r : user_set_row) : float64 :=
  one_rm (ws_weight (us_set r)) (ws_reps (us_set r)).

Definition row_volume_load (r : user_set_row) : Qc :=
  volume_load (ws_weight (us_set r)) (ws_reps (us_set r)).

(** [None] stands for the "No data for this exercise." branch. *)
Definition report_by_exercise (d : database) (uid selected_exercise_id : Z)
  : option exercise_report :=
  match get_user_workout_sets d uid (Some selected_exercise_id) with
  | [] => None
  | data =>
      Some
        {| one_rm_column := map row_one_rm data;
           daily_max :=
             map (fun '(day, g) => (day, series_max (map row_one_rm g)))
               (group_by us_session_date data);
           volume_load_column := map row_volume_load data;
           daily_volume_load :=
             map (fun '(day, g) => (day, sum_Qc (map row_volume_load g)))
               (group_by us_session_date data) |}
  end.

(** ** The "By Workout Session" report *)

Record exercise_details := {
  ex_name : string;
  ex_sets : nat;
  ex_reps : Z;
  ex_volume_load : Qc;
  ex_1rm : float64
}.

Record session_report := {
  total_volume_load : Qc;
  total_sets : nat;
  total_reps : Z;
  details : list exercise_details
}.

Definition ss_weight (r : session_set_row) : Qc := ws_weight (ss_set r).
Definition ss_reps (r : session_set_row) : Z := ws_reps (ss_set r).

(** [None] stands for the "No sets in this session." branch. *)
Definition report_by_session (d : database) (selected_session_id : Z)
  : option session_report :=
  match get_workout_sets_by_session d selected_session_id with
  | [] => None
  | session_sets =>
      Some
        {| total_volume_load :=
             sum_Qc (map (fun r => volume_load (ss_weight r) (ss_reps r))
                       session_sets);
           total_sets := List.length session_sets;
           total_reps := sum_Z (map ss_reps session_sets);
           details :=
             map (fun '(name, group) =>
                    {| ex_name := name;
                       ex_sets := List.length group;
                       ex_reps := sum_Z (map ss_reps group);
                       ex_volume_load :=
                         sum_Qc (map (fun r => volume_load (ss_weight r)
                                                 (ss_reps r)) group);
                       ex_1rm :=
                         series_max
                           (map (fun r => one_rm (ss_weight r) (ss_reps r))
                              group) |})
               (group_by ss_exercise_name session_sets) |}
  end.

(** ** Exercise listing and search *)

Definition ascii_lower (c : ascii) : ascii :=
  let n := nat_of_ascii c in
  if ((65 <=? n) && (n <=? 90))%nat then ascii_of_nat (n + 32) else c.

(** SQLite's default [LIKE] on ASCII text: [%] matches any run of
    characters, [_] exactly one, letters match without regard to case. *)
Fixpoint sql_like (pattern s : string) : bool :=
  match pattern with
  | EmptyString => match s with EmptyString => true | _ => false end
  | String p pattern' =>
      if Ascii.eqb p "%" then
        (fix any_run (s : string) : bool :=
           sql_like pattern' s
           || match s with
              | EmptyString => false
              | String _ s' => any_run s'
              end) s
      else
        match s with
        | EmptyString => false
        | String c s' =>
            (Ascii.eqb p "_" || Ascii.eqb (ascii_lower p) (ascii_lower c))
            && sql_like pattern' s'
        end
  end.

(** [exercises e LEFT JOIN exercise_categories ec ON e.id = ec.exercise_id]:
    an exercise without category keeps one row with a NULL [category_id]. *)
Definition left_join_categories (d : database)
  : list (exercise_row * option Z) :=
  flat_map (fun e =>
    match filter (fun ec => e_id e =? ec_exercise_id ec)
            (exercise_categories d) with
    | [] => [(e, None)]
    | ecs => map (fun ec => (e, Some (ec_category_id ec))) ecs
    end)
    (exercises d).

(** [ec.category_id IN (?, ..., ?)]; NULL is in no list. *)
Definition category_in (category_ids : list Z) (c : option Z) : bool :=
  match c with
  | Some c => mem_Z c category_ids
  | None => false
  end.

(** [e.name LIKE '%' + search_term + '%'] *)
Definition name_like (search_term : string) (e : exercise_row) : bool :=
  sql_like ("%" ++ search_term ++ "%") (e_name e).

Definition exercise_row_eqb (a b : exercise_row) : bool :=
  (e_id a =? e_id b) && String.eqb (e_name a) (e_name b)
  && String.eqb (e_description a) (e_description b).

Definition by_name (a b : exercise_row) : bool :=
  String.leb (e_name a) (e_name b).

(** [if category_ids:] is false for [None] and for the empty list,
    [if search_term:] for the empty string. *)
Definition get_exercises (d : database) (category_ids : option (list Z))
  (search_term : string) : list exercise_row :=
  let joined := left_join_categories d in
  let joined :=
    match category_ids with
    | Some (c :: cs) => filter (fun r => category_in (c :: cs) (snd r)) joined
    | Some [] | None => joined
    end in
  let joined :=
    match search_term with
    | EmptyString => joined
    | String _ _ => filter (fun r => name_like search_term (fst r)) joined
    end in
  order_by by_name (distinct exercise_row_eqb (map fst joined)).

(** The call of the "Exercises" tab:
    [selected_cats_filter if selected_cats_filter else None]. *)
Definition search_exercises (d : database) (selected_cats_filter : list Z)
  (search_term : string) : list exercise_row :=
  get_exercises d
    match selected_cats_filter with
    | [] => None
    | _ :: _ => Some selected_cats_filter
    end
    search_term.

(** ** Authentication *)

Section Authentication.

(** [pbkdf2_sha256.verify(password, hash)] of passlib: [Some b] when it
    returns [b], [None] when it raises on a malformed hash. *)
Variable verify_password : string -> string -> option bool.

(** The returned pair [(id, is_admin)] or [(None, None)]; the outer
    [None] is an exception of [verify_password] passing through. *)
Definition authenticate_user (d : database) (username password : string)
  : option (option Z * option Z) :=
  match find (fun u => String.eqb (u_username u) username) (users d) with
  | Some row =>
      match verify_password password (u_password_hash row) with
      | Some true => Some (Some (u_id row), Some (u_is_admin row))
      | Some false => Some (None, None)
      | None => None
      end
  | None => Some (None, None)
  end.

End Authentication.

(** [st.session_state] once a handler of outcome [o] has run from [st]: the
    state the handler returned, or [st] itself when the handler raised,
    since an exception leaves the script before any of its assignments to
    the session state. *)
Definition session_state_after {A} (st : session_state)
  (o : outcome (A * session_state)) : session_state :=
  match o with
  | Returned (_, st') _ => st'
  | Raised _ => st
  end.

(** ** Vocabulary for the statements *)

(** The fields of a buffered set as they appear in a stored row. *)
Definition entry_of (r : set_row) : set_entry :=
  (ws_weight r, ws_reps r, ws_rpe_rating r).

(** The call that produced a stored row. *)
Definition call_of (r : set_row) : Z * Z * set_entry :=
  (ws_exercise_id r, ws_set_number r, entry_of r).

(** All buffered sets, in the order the save handler visits them. *)
Definition buffered_sets (log : list (Z * list set_entry)) : list set_entry :=
  List.concat (map snd log).

(** The [log_set] calls of a save, in execution order:
    [(ex_id, set_num, (w, r, rpe))]. *)
Definition log_calls (log : list (Z * list set_entry))
  : list (Z * Z * set_entry) :=
  flat_map (fun '(ex_id, sets) =>
              map (fun '(set_num, e) => (ex_id, set_num, e))
                (enumerate 1 sets))
    log.

Definition insert_call (uid sid : Z) (c : Z * Z * set_entry)
  : database -> database :=
  let '(ex_id, set_num, (w, r, rpe)) := c in
  insert_workout_set uid sid ex_id w r set_num rpe.

(** The rows that a run of calls appends when the sequence stands at [sq]. *)
Fixpoint rows_of_calls (uid sid sq : Z) (cs : list (Z * Z * set_entry))
  : list set_row :=
  match cs with
  | [] => []
  | (ex_id, set_num, (w, r, rpe)) :: cs' =>
      {| ws_id := sq + 1; ws_user_id := uid; ws_session_id := sid;
         ws_exercise_id := ex_id; ws_weight := w; ws_reps := r;
         ws_set_number := set_num; ws_rpe_rating := rpe |}
      :: rows_of_calls uid sid (sq + 1) cs'
  end.

(** How many of the next [n] transactions commit before the first one that
    raises. *)
Fixpoint succeed_count (n : nat) (fs : list bool) : nat :=
  match n with
  | O => O
  | S n' =>
      match fs with
      | true :: _ => O
      | false :: fs' => S (succeed_count n' fs')
      | [] => n
      end
  end.

(** None of the next [n] transactions raises. *)
Definition fault_free (n : nat) (fs : list bool) : bool :=
  negb (existsb (fun b => b) (firstn n fs)).

(** The session holds the rows of this (session, exercise) pair. *)
Definition of_pair (sid ex : Z) (r : set_row) : bool :=
  (ws_session_id r =? sid) && (ws_exercise_id r =? ex).

(** ** A small database and session used for the concrete runs *)

Definition demo_db : database :=
  {| users :=
       [{| u_id := 1; u_username := "ann"; u_password_hash := "$pbkdf2";
           u_is_admin := 0; u_age := None; u_weight_kg := Some (Z2Qc 70);
           u_height_cm := None; u_gender := None |};
        {| u_id := 2; u_username := "bob"; u_password_hash := "$pbkdf2";
           u_is_admin := 0; u_age := None; u_weight_kg := None;
           u_height_cm := None; u_gender := None |}];
     categories := [{| c_id := 1; c_name := "Legs" |};
                    {| c_id := 2; c_name := "Chest" |}];
     exercises :=
       [{| e_id := 1; e_name := "Squat"; e_description := "" |};
        {| e_id := 2; e_name := "Bench Press"; e_description := "" |};
        {| e_id := 3; e_name := "Plank"; e_description := "" |}];
     exercise_categories :=
       [{| ec_exercise_id := 1; ec_category_id := 1 |};
        {| ec_exercise_id := 2; ec_category_id := 2 |}];
     sessions :=
       [{| s_id := 1; s_user_id := 1; s_name := "Push Day A";
           s_date := "2024-01-01"; s_notes := "" |}];
     workout_sets := [];
     ws_sequence := 0 |}.

Definition demo_state : session_state :=
  {| user_id := 1; current_session_id := 1; workout_log := [];
     current_exercise := None; bodyweight_toggle := false |}.

Definition with_log (log : list (Z * list set_entry)) : session_state :=
  set_workout_log demo_state log.

(** The sample database after a save of the given buffer into session 1,
    without storage failure. *)
Definition saved (log : list (Z * list set_entry)) : database :=
  db (final_world
        (save_entire_workout (with_log log) {| db := demo_db; faults := [] |})).

(** ** Users and profiles *)

Definition with_users (d : database) (rows : list user_row) : database :=
  {| users := rows; categories := categories d; exercises := exercises d;
     exercise_categories := exercise_categories d; sessions := sessions d;
     workout_sets := workout_sets d; ws_sequence := ws_sequence d |}.

(** [get_user_id]: [(id, is_admin)] of the row with that name, or
    [(None, None)]. *)
Definition get_user_id (d : database) (username : string)
  : option Z * option Z :=
  match find (fun u => String.eqb (u_username u) username) (users d) with
  | Some row => (Some (u_id row), Some (u_is_admin row))
  | None => (None, None)
  end.

(** The dict returned by [get_user_profile]. *)
Record profile := {
  p_age : option Z;
  p_weight_kg : option Qc;
  p_height_cm : option Qc;
  p_gender : option string
}.

Definition get_user_profile (d : database) (uid : Z) : profile :=
  match find (fun u => u_id u =? uid) (users d) with
  | Some row =>
      {| p_age := u_age row; p_weight_kg := u_weight_kg row;
         p_height_cm := u_height_cm row; p_gender := u_gender row |}
  | None =>
      {| p_age := None; p_weight_kg := None; p_height_cm := None;
         p_gender := None |}
  end.

(** [UPDATE users SET age = ?, weight_kg = ?, height_cm = ?, gender = ?
    WHERE id = ?]; a Python [None] is stored as NULL. *)
Definition update_user_profile (uid : Z) (age : option Z)
  (weight_kg height_cm : option Qc) (gender : option string) : M unit :=
  transact (fun d =>
    with_users d
      (map (fun u =>
              if u_id u =? uid then
                {| u_id := u_id u; u_username := u_username u;
                   u_password_hash := u_password_hash u;
                   u_is_admin := u_is_admin u; u_age := age;
                   u_weight_kg := weight_kg; u_height_cm := height_cm;
                   u_gender := gender |}
              else u)
         (users d))).

(** ** The tables with an [AUTOINCREMENT] id other than [workout_sets] *)

(** The SQLite file with the [sqlite_sequence] entries of the remaining
    tables. *)
Record app_db := {
  tables : database;
  users_sequence : Z;
  categories_sequence : Z;
  exercises_sequence : Z;
  sessions_sequence : Z
}.

Record app_world := { file : app_db; io_faults : list bool }.

Inductive app_outcome (A : Type) : Type :=
| Finished (a : A) (w : app_world)
| Crashed (w : app_world).
Arguments Finished {A} a w.
Arguments Crashed {A} w.

Definition AM (A : Type) : Type := app_world -> app_outcome A.

Definition finished {A} (o : app_outcome A) : bool :=
  match o with Finished _ _ => true | Crashed _ => false end.

Definition final_file {A} (o : app_outcome A) : app_db :=
  match o with Finished _ w => file w | Crashed w => file w end.

Definition result {A} (o : app_outcome A) : option A :=
  match o with Finished a _ => Some a | Crashed _ => None end.

(** One [connect ... close] block whose body handles
    [sqlite3.IntegrityError] itself: the body yields its value and, if it
    reached [conn.commit()], the new file; without a commit the file is
    left as it was.  Any other [sqlite3.Error] is decided by the fault
    schedule, as for [transact]. *)
Definition connection {A} (body : app_db -> A * option app_db) : AM A :=
  fun w =>
    let run fs :=
      let (a, c) := body (file w) in
      Finished a {| file := match c with Some f => f | None => file w end;
                    io_faults := fs |} in
    match io_faults w with
    | true :: fs => Crashed {| file := file w; io_faults := fs |}
    | false :: fs => run fs
    | [] => run []
    end.

(** The rowid an [AUTOINCREMENT] table gives to a new row: one more than
    the larger of its sequence and its largest rowid. *)
Definition next_rowid (sq : Z) (ids : list Z) : Z :=
  Z.max sq (fold_right Z.max 0 ids) + 1.

Definition with_tables (f : app_db) (d : database) : app_db :=
  {| tables := d; users_sequence := users_sequence f;
     categories_sequence := categories_sequence f;
     exercises_sequence := exercises_sequence f;
     sessions_sequence := sessions_sequence f |}.

(** [INSERT INTO users (username, password_hash, is_admin)]: [None] is the
    [IntegrityError] of the [UNIQUE] username; the profile columns of the
    new row are NULL. *)
Definition insert_user (username password_hash : string) (is_admin : Z)
  (f : app_db) : option (Z * app_db) :=
  if existsb (fun u => String.eqb (u_username u) username) (users (tables f))
  then None
  else
    let new_id := next_rowid (users_sequence f) (map u_id (users (tables f))) in
    Some (new_id,
          {| tables :=
               with_users (tables f)
                 (users (tables f) ++
                    [{| u_id := new_id; u_username := username;
                        u_password_hash := password_hash;
                        u_is_admin := is_admin; u_age := None;
                        u_weight_kg := None; u_height_cm := None;
                        u_gender := None |}]);
             users_sequence := new_id;
             categories_sequence := categories_sequence f;
             exercises_sequence := exercises_sequence f;
             sessions_sequence := sessions_sequence f |}).

Section Accounts.

(** [pbkdf2_sha256.hash(password)] of passlib, for the salt it draws in
    this call. *)
Variable hash_password : string -> string.

(** [(True, user_id)], or [(False, None)] when the name is taken. *)
Definition create_user (username password : string) (is_admin : Z)
  : AM (bool * option Z) :=
  connection (fun f =>
    match insert_user username (hash_password password) is_admin f with
    | Some (uid, f') => ((true, Some uid), Some f')
    | None => ((false, None), None)
    end).

End Accounts.

(** ** Categories *)

Definition with_categories (d : database) (rows : list category_row)
  : database :=
  {| users := users d; categories := rows; exercises := exercises d;
     exercise_categories := exercise_categories d; sessions := sessions d;
     workout_sets := workout_sets d; ws_sequence := ws_sequence d |}.

Definition by_category_name (a b : category_row) : bool :=
  String.leb (c_name a) (c_name b).

(** [SELECT id, name FROM categories ORDER BY name] *)
Definition get_categories (d : database) : list category_row :=
  order_by by_category_name (categories d).

Definition insert_category (name : string) (f : app_db) : option app_db :=
  if existsb (fun c => String.eqb (c_name c) name) (categories (tables f))
  then None
  else
    let new_id :=
      next_rowid (categories_sequence f) (map c_id (categories (tables f))) in
    Some {| tables :=
              with_categories (tables f)
                (categories (tables f) ++ [{| c_id := new_id; c_name := name |}]);
            users_sequence := users_sequence f;
            categories_sequence := new_id;
            exercises_sequence := exercises_sequence f;
            sessions_sequence := sessions_sequence f |}.

(** [add_category]: the [IntegrityError] of a taken name is swallowed. *)
Definition add_category (name : string) : AM unit :=
  connection (fun f =>
    match insert_category name f with
    | Some f' => (tt, Some f')
    | None => (tt, None)
    end).

Definition default_cats : list string :=
  ["Legs"; "Chest"; "Core"; "Back"; "Shoulders"; "Arms"; "Full Body"]%string.

(** [for cat in default_cats: add_category(cat)] *)
Fixpoint add_categories (names : list string) : AM unit :=
  match names with
  | [] => fun w => Finished tt w
  | name :: names' =>
      fun w => match add_category name w with
               | Finished _ w' => add_categories names' w'
               | Crashed w' => Crashed w'
               end
  end.

(** ** Adding an exercise *)

Definition with_exercises (d : database) (rows : list exercise_row)
  (links : list exercise_category_row) : database :=
  {| users := users d; categories := categories d; exercises := rows;
     exercise_categories := links; sessions := sessions d;
     workout_sets := workout_sets d; ws_sequence := ws_sequence d |}.

(** [INSERT INTO exercises (name, description)]; [None] is the
    [IntegrityError] of the [UNIQUE] name. *)
Definition insert_exercise (name description : string) (f : app_db)
  : option (Z * app_db) :=
  if existsb (fun e => String.eqb (e_name e) name) (exercises (tables f))
  then None
  else
    let new_id :=
      next_rowid (exercises_sequence f) (map e_id (exercises (tables f))) in
    Some (new_id,
          {| tables :=
               with_exercises (tables f)
                 (exercises (tables f) ++
                    [{| e_id := new_id; e_name := name;
                        e_description := description |}])
                 (exercise_categories (tables f));
             users_sequence := users_sequence f;
             categories_sequence := categories_sequence f;
             exercises_sequence := new_id;
             sessions_sequence := sessions_sequence f |}).

(** [INSERT INTO exercise_categories]; [None] is the [IntegrityError] of
    the composite primary key.  Foreign keys are not enforced. *)
Definition insert_exercise_category (exercise_id category_id : Z) (f : app_db)
  : option app_db :=
  if existsb (fun ec => (ec_exercise_id ec =? exercise_id)
                        && (ec_category_id ec =? category_id))
       (exercise_categories (tables f))
  then None
  else
    Some (with_tables f
            (with_exercises (tables f) (exercises (tables f))
               (exercise_categories (tables f) ++
                  [{| ec_exercise_id := exercise_id;
                      ec_category_id := category_id |}]))).

Fixpoint insert_exercise_categories (exercise_id : Z) (category_ids : list Z)
  (f : app_db) : option app_db :=
  match category_ids with
  | [] => Some f
  | cat_id :: rest =>
      match insert_exercise_category exercise_id cat_id f with
      | Some f' => insert_exercise_categories exercise_id rest f'
      | None => None
      end
  end.

(** [add_exercise]: the value is the [st.error] shown, if any.  An
    [IntegrityError] anywhere in the block skips the commit. *)
Definition add_exercise (name description : string) (category_ids : list Z)
  : AM (option notice) :=
  connection (fun f =>
    match insert_exercise name description f with
    | Some (exercise_id, f1) =>
        match insert_exercise_categories exercise_id category_ids f1 with
        | Some f2 => (None, Some f2)
        | None =>
            (Some (st_error "Exercise with this name already exists."), None)
        end
    | None => (Some (st_error "Exercise with this name already exists."), None)
    end).

(** ** Sessions *)

(** [create_session]; [session_date] is the text of
    [session_date.isoformat()]. *)
Definition create_session (user_id : Z) (name session_date notes : string)
  : AM Z :=
  connection (fun f =>
    let session_id :=
      next_rowid (sessions_sequence f) (map s_id (sessions (tables f))) in
    (session_id,
     Some {| tables :=
               with_sessions (tables f)
                 (sessions (tables f) ++
                    [{| s_id := session_id; s_user_id := user_id;
                        s_name := name; s_date := session_date;
                        s_notes := notes |}]);
             users_sequence := users_sequence f;
             categories_sequence := categories_sequence f;
             exercises_sequence := exercises_sequence f;
             sessions_sequence := session_id |})).

(** [ORDER BY date DESC, id DESC] *)
Definition by_date_desc_id_desc (a b : session_row) : bool :=
  match String.compare (s_date a) (s_date b) with
  | Gt => true
  | Lt => false
  | Eq => s_id b <=? s_id a
  end.

Definition get_user_sessions (d : database) (uid : Z) : list session_row :=
  order_by by_date_desc_id_desc
    (filter (fun s => s_user_id s =? uid) (sessions d)).

Definition get_session_by_id (d : database) (session_id : Z)
  : option session_row :=
  find (fun s => s_id s =? session_id) (sessions d).

(** ** Order of pandas float values *)

(** [a <= b] on values that are not not-a-number. *)
Definition float_leb (a b : float64) : bool :=
  match a, b with
  | NaN, _ | _, NaN => false
  | NegInf, _ => true
  | _, PosInf => true
  | Finite x, Finite y => Qc_leb x y
  | _, _ => false
  end.

(** ** Invariants of the stored sets *)

(** The ids of [workout_sets] are pairwise distinct and none exceeds the
    table's sequence. *)
Definition set_ids_wf (d : database) : Prop :=
  NoDup (map ws_id (workout_sets d)) /\
  Forall (fun r => ws_id r <= ws_sequence d) (workout_sets d).

(** Every stored set refers to a stored session. *)
Definition sets_have_session (d : database) : Prop :=
  Forall (fun r => In (ws_session_id r) (map s_id (sessions d)))
    (workout_sets d).

(** The file with more rows in [exercise_categories]. *)
Definition add_links (f : app_db) (links : list exercise_category_row)
  : app_db :=
  with_tables f
    (with_exercises (tables f) (exercises (tables f))
       (exercise_categories (tables f) ++ links)).

(** Every exercise-category link refers to a stored exercise. *)
Definition links_have_exercise (d : database) : Prop :=
  forall ec, In ec (exercise_categories d) ->
             In (ec_exercise_id ec) (map e_id (exercises d)).

(** The text with its ASCII capitals in lower case. *)
Fixpoint string_lower (s : string) : string :=
  match s with
  | EmptyString => EmptyString
  | String c s' => String (ascii_lower c) (string_lower s')
  end.

(** ** Accounts carried over by [upgrade_schema] *)



(** * Properties *)

(** ** The storage monad and its loops *)

Lemma for_each_ext {A} (xs : list A) (f g : A -> M unit) :
  (forall x w, f x w = g x w) ->
  forall w, for_each xs f w = for_each xs g w.
Proof.
  intros Hfg. induction xs as [|x xs IH]; intros w; simpl.
  - reflexivity.
  - unfold bind. rewrite Hfg. destruct (g x w); auto.
Qed.

Lemma for_each_app {A} (xs ys : list A) (f : A -> M unit) w :
  for_each (xs ++ ys) f w = (for_each xs f ;;; for_each ys f) w.
Proof.
  revert w. induction xs as [|x xs IH]; intros w; simpl.
  - reflexivity.
  - unfold bind in *. destruct (f x w) as [[] w'|w']; [apply IH | reflexivity].
Qed.

Lemma for_each_map {A B} (h : A -> B) (xs : list A) (f : B -> M unit) w :
  for_each (map h xs) f w = for_each xs (fun x => f (h x)) w.
Proof.
  revert w. induction xs as [|x xs IH]; intros w; simpl.
  - reflexivity.
  - unfold bind. destruct (f (h x) w); auto.
Qed.

Lemma for_each_flat_map {A B} (g : A -> list B) (xs : list A)
  (f : B -> M unit) w :
  for_each (flat_map g xs) f w = for_each xs (fun x => for_each (g x) f) w.
Proof.
  revert w. induction xs as [|x xs IH]; intros w; simpl.
  - reflexivity.
  - rewrite for_each_app. unfold bind.
    destruct (for_each (g x) f w) as [[] w'|w']; [apply IH | reflexivity].
Qed.

(** A loop of single-statement transactions commits a prefix. *)
Lemma for_each_transact {A} (f : A -> database -> database) (xs : list A) w :
  let j := succeed_count (List.length xs) (faults w) in
  let o := for_each xs (fun x => transact (f x)) w in
  db (final_world o) = fold_left (fun d x => f x d) (firstn j xs) (db w)
  /\ returned o = Nat.eqb j (List.length xs).
Proof.
  revert w. induction xs as [|x xs IH]; intros [d fs]; simpl.
  - split; reflexivity.
  - unfold bind; destruct fs as [|[] fs]; simpl.
    + specialize (IH {| db := f x d; faults := [] |}). simpl in IH.
      destruct IH as [IH1 IH2]. rewrite IH1, IH2.
      assert (E : succeed_count (List.length xs) [] = List.length xs)
        by (destruct xs; reflexivity).
      rewrite E, firstn_all, Nat.eqb_refl. split; reflexivity.
    + split; reflexivity.
    + specialize (IH {| db := f x d; faults := fs |}). simpl in IH. exact IH.
Qed.

Lemma succeed_count_le n fs : (succeed_count n fs <= n)%nat.
Proof.
  revert fs. induction n as [|n IH]; intros fs; simpl; [lia|].
  destruct fs as [|[] fs]; [lia | lia | specialize (IH fs); lia].
Qed.

Lemma fault_free_succeed_count n fs :
  fault_free n fs = true <-> succeed_count n fs = n.
Proof.
  unfold fault_free. revert fs. induction n as [|n IH]; intros fs; simpl.
  - split; reflexivity.
  - destruct fs as [|[] fs]; simpl.
    + split; reflexivity.
    + split; discriminate.
    + rewrite IH. split; [congruence | intros H; injection H; auto].
Qed.

(** ** What a save writes *)

Lemma with_workout_sets_id d :
  with_workout_sets d (workout_sets d ++ []) (ws_sequence d + 0) = d.
Proof. destruct d; unfold with_workout_sets; simpl. now rewrite app_nil_r, Z.add_0_r. Qed.

Lemma fold_insert_calls uid sid cs d :
  fold_left (fun d c => insert_call uid sid c d) cs d =
  with_workout_sets d
    (workout_sets d ++ rows_of_calls uid sid (ws_sequence d) cs)
    (ws_sequence d + Z.of_nat (List.length cs)).
Proof.
  revert d. induction cs as [|[[ex n] [[wt r] rpe]] cs IH]; intros d.
  - simpl. symmetry. apply with_workout_sets_id.
  - cbn [fold_left rows_of_calls List.length]. rewrite IH.
    unfold insert_call, insert_workout_set, with_workout_sets; simpl.
    rewrite <- app_assoc. simpl. f_equal. lia.
Qed.

(** The nested loops of the handler are one loop over [log_calls]. *)
Lemma save_loop_flat st w :
  for_each (workout_log st) (fun '(ex_id, sets) =>
    for_each (enumerate 1 sets) (fun '(set_num, (wt, r, rpe)) =>
      log_set (user_id st) (current_session_id st) ex_id wt r set_num rpe)) w
  = for_each (log_calls (workout_log st))
      (fun c => transact (insert_call (user_id st) (current_session_id st) c))
      w.
Proof.
  unfold log_calls. rewrite for_each_flat_map.
  apply for_each_ext. intros [ex sets] w'.
  rewrite for_each_map. apply for_each_ext.
  intros [n [[wt r] rpe]] w''. reflexivity.
Qed.

Lemma save_entire_workout_spec st w :
  let calls := log_calls (workout_log st) in
  let j := succeed_count (List.length calls) (faults w) in
  let o := save_entire_workout st w in
  db (final_world o) =
    with_workout_sets (db w)
      (workout_sets (db w) ++
         rows_of_calls (user_id st) (current_session_id st)
           (ws_sequence (db w)) (firstn j calls))
      (ws_sequence (db w) + Z.of_nat j)
  /\ returned o = Nat.eqb j (List.length calls).
Proof.
  intros calls j o. subst o. unfold save_entire_workout.
  destruct (workout_log st) as [|p log] eqn:Hlog.
  - subst calls j. simpl. split; [|reflexivity].
    symmetry. apply with_workout_sets_id.
  - rewrite <- Hlog. unfold bind. rewrite save_loop_flat.
    pose proof (for_each_transact
                  (insert_call (user_id st) (current_session_id st))
                  (log_calls (workout_log st)) w) as H.
    cbv zeta in H. rewrite Hlog in *. fold calls in H |- *. fold j in H.
    destruct H as [H1 H2].
    assert (Hlen : List.length (firstn j calls) = j).
    { apply firstn_length_le. apply succeed_count_le. }
    destruct (for_each calls _ w) as [[] w'|w'] eqn:E; simpl in *;
      rewrite H1, fold_insert_calls, Hlen; split; auto.
Qed.

Lemma call_of_rows uid sid sq cs :
  map call_of (rows_of_calls uid sid sq cs) = cs.
Proof.
  revert sq. induction cs as [|[[ex n] [[wt r] rpe]] cs IH]; intros sq; simpl.
  - reflexivity.
  - now rewrite IH.
Qed.

Lemma rows_of_calls_owner uid sid sq cs :
  Forall (fun r => ws_user_id r = uid /\ ws_session_id r = sid)
    (rows_of_calls uid sid sq cs).
Proof.
  revert sq. induction cs as [|[[ex n] [[wt r] rpe]] cs IH]; intros sq; simpl;
    constructor; auto.
Qed.

Lemma enumerate_snd {A} start (xs : list A) :
  map snd (enumerate start xs) = xs.
Proof.
  revert start. induction xs as [|x xs IH]; intros start; simpl;
    [reflexivity | now rewrite IH].
Qed.

Lemma enumerate_fst {A} (k : nat) (xs : list A) :
  map fst (enumerate (Z.of_nat k) xs) = map Z.of_nat (seq k (List.length xs)).
Proof.
  revert k. induction xs as [|x xs IH]; intros k; simpl.
  - reflexivity.
  - f_equal. replace (Z.of_nat k + 1) with (Z.of_nat (S k)) by lia. apply IH.
Qed.

Lemma log_calls_entries log :
  map snd (log_calls log) = buffered_sets log.
Proof.
  unfold log_calls, buffered_sets.
  induction log as [|[ex sets] log IH]; simpl.
  - reflexivity.
  - rewrite map_app, IH. f_equal.
    rewrite map_map. rewrite <- (enumerate_snd 1 sets) at 2.
    apply map_ext. now intros [n e].
Qed.

Lemma entry_of_rows uid sid sq cs :
  map entry_of (rows_of_calls uid sid sq cs) = map snd cs.
Proof.
  rewrite <- (call_of_rows uid sid sq cs) at 2. rewrite map_map.
  reflexivity.
Qed.

Lemma filter_pair_rows uid sid sq ex cs :
  map call_of (filter (of_pair sid ex) (rows_of_calls uid sid sq cs)) =
  filter (fun c => fst (fst c) =? ex) cs.
Proof.
  revert sq. induction cs as [|[[ex' n] [[wt r] rpe]] cs IH]; intros sq; simpl.
  - reflexivity.
  - unfold of_pair at 1; simpl. rewrite Z.eqb_refl; simpl.
    destruct (ex' =? ex); simpl; now rewrite IH.
Qed.

Lemma filter_calls_absent ex log :
  ~ In ex (map fst log) ->
  filter (fun c => fst (fst c) =? ex) (log_calls log) = [].
Proof.
  unfold log_calls. induction log as [|[k sets] log IH]; simpl; intros Hnin.
  - reflexivity.
  - rewrite filter_app, IH by tauto. rewrite app_nil_r.
    assert (Hk : (k =? ex) = false) by (apply Z.eqb_neq; tauto).
    clear -Hk. generalize 1. induction sets as [|e sets IHs]; intros s; simpl.
    + reflexivity.
    + rewrite Hk. apply IHs.
Qed.

Lemma filter_tagged_same {A} ex (l : list (Z * A)) :
  filter (fun c : Z * Z * A => fst (fst c) =? ex)
    (map (fun '(n, e) => (ex, n, e)) l) =
  map (fun '(n, e) => (ex, n, e)) l.
Proof.
  induction l as [|[n e] l IH]; simpl; [reflexivity|].
  now rewrite Z.eqb_refl, IH.
Qed.

Lemma filter_tagged_other {A} k ex (l : list (Z * A)) :
  (k =? ex) = false ->
  filter (fun c : Z * Z * A => fst (fst c) =? ex)
    (map (fun '(n, e) => (k, n, e)) l) = [].
Proof.
  intros Hk. induction l as [|[n e] l IH]; simpl; [reflexivity|].
  now rewrite Hk.
Qed.

Lemma filter_calls_present ex sets log :
  NoDup (map fst log) ->
  dict_get ex log = Some sets ->
  filter (fun c => fst (fst c) =? ex) (log_calls log) =
  map (fun '(n, e) => (ex, n, e)) (enumerate 1 sets).
Proof.
  induction log as [|[k v] log IH]; simpl; intros Hnd Hget.
  - discriminate.
  - inversion Hnd as [|? ? Hnin Hnd']; subst.
    unfold log_calls; simpl. rewrite filter_app.
    fold (log_calls log).
    destruct (k =? ex) eqn:Hk.
    + apply Z.eqb_eq in Hk. subst k. injection Hget as ->.
      rewrite filter_calls_absent by assumption. rewrite app_nil_r.
      apply filter_tagged_same.
    + rewrite IH by assumption.
      now rewrite filter_tagged_other.
Qed.


(** On a run without storage failure the handler returns and has appended
    one row per call. *)
Lemma save_entire_workout_ok st w :
  fault_free (List.length (log_calls (workout_log st))) (faults w) = true ->
  let o := save_entire_workout st w in
  returned o = true /\
  workout_sets (db (final_world o)) =
    workout_sets (db w) ++
      rows_of_calls (user_id st) (current_session_id st) (ws_sequence (db w))
        (log_calls (workout_log st)) /\
  exercises (db (final_world o)) = exercises (db w).
Proof.
  intros Hff o. apply fault_free_succeed_count in Hff.
  destruct (save_entire_workout_spec st w) as [Hdb Hret].
  cbv zeta in Hdb, Hret. fold o in Hdb, Hret.
  rewrite Hff in Hdb, Hret. rewrite firstn_all in Hdb.
  rewrite Nat.eqb_refl in Hret. rewrite Hdb. auto.
Qed.

(** ** C1: the save is not one transaction *)

(** C1, as stated, fails: with two buffered sets and a storage failure on the
    second [log_set], the handler raises and exactly the first set is left in
    [workout_sets], a strict non-empty part of the buffer. *)
Lemma save_entire_workout_partial_write :
  let st := with_log [(1, [(Z2Qc 80, 5, 7); (Z2Qc 100, 5, 8)])] in
  let o := save_entire_workout st {| db := demo_db; faults := [false; true] |} in
  returned o = false /\
  workout_sets demo_db = [] /\
  List.length (buffered_sets (workout_log st)) = 2%nat /\
  map call_of (workout_sets (db (final_world o))) = [(1, 1, (Z2Qc 80, 5, 7))].
Proof. vm_compute. repeat split; reflexivity. Qed.

(** What the handler hands back: the value of the last line it reached. *)
Lemma save_entire_workout_outcome st w :
  save_entire_workout st w =
  match for_each (log_calls (workout_log st))
          (fun c => transact (insert_call (user_id st) (current_session_id st) c))
          w with
  | Returned _ w' =>
      Returned
        match workout_log st with
        | [] => (st_warning "No sets to save.", st)
        | _ :: _ => (st_success "Workout saved!", reset_log st)
        end
        w'
  | Raised w' => Raised w'
  end.
Proof.
  unfold save_entire_workout.
  destruct (workout_log st) as [|p log] eqn:Hlog; [reflexivity|].
  rewrite <- Hlog. unfold bind. rewrite save_loop_flat.
  destruct (for_each _ _ w) as [[] w'|w']; reflexivity.
Qed.

(** C1, amended: every buffered set is written by a transaction of its own,
    in buffer order.  The rows a save leaves behind are those of the calls
    that came before the first storage failure, a prefix of the buffer; the
    handler returns exactly when that prefix is the whole buffer, and
    otherwise raises with the prefix already committed.  When it returns
    (from a buffer that is not the empty dict) it reports "Workout saved!"
    and hands back the reset state, so the buffer is cleared; when it raises
    the session state, and with it the buffer, is as it was. *)
Theorem save_entire_workout_commits_prefix st w :
  let calls := log_calls (workout_log st) in
  let j := succeed_count (List.length calls) (faults w) in
  let o := save_entire_workout st w in
  let added :=
    rows_of_calls (user_id st) (current_session_id st) (ws_sequence (db w))
      (firstn j calls) in
  let complete := Nat.eqb j (List.length (buffered_sets (workout_log st))) in
  workout_sets (db (final_world o)) = workout_sets (db w) ++ added
  /\ map entry_of added = firstn j (buffered_sets (workout_log st))
  /\ (j <= List.length (buffered_sets (workout_log st)))%nat
  /\ returned o = complete
  /\ o = (if complete
          then Returned
                 match workout_log st with
                 | [] => (st_warning "No sets to save.", st)
                 | _ :: _ => (st_success "Workout saved!", reset_log st)
                 end
                 (final_world o)
          else Raised (final_world o))
  /\ session_state_after st o =
       (if complete
        then match workout_log st with
             | [] => st
             | _ :: _ => reset_log st
             end
        else st)
  /\ workout_log (session_state_after st o) =
       (if complete then [] else workout_log st).
Proof.
  intros calls j o added complete.
  destruct (save_entire_workout_spec st w) as [Hdb Hret].
  cbv zeta in Hdb, Hret. fold calls j o in Hdb, Hret.
  assert (Hlen : List.length calls = List.length (buffered_sets (workout_log st))).
  { unfold calls. rewrite <- log_calls_entries. now rewrite length_map. }
  rewrite Hlen in Hret. fold complete in Hret.
  assert (Ho : o = (if complete
                    then Returned
                           match workout_log st with
                           | [] => (st_warning "No sets to save.", st)
                           | _ :: _ => (st_success "Workout saved!", reset_log st)
                           end
                           (final_world o)
                    else Raised (final_world o))).
  { rewrite <- Hret. unfold o. rewrite save_entire_workout_outcome.
    destruct (for_each _ _ w) as [[] w'|w']; reflexivity. }
  split; [rewrite Hdb; reflexivity|].
  split.
  { unfold added. rewrite entry_of_rows, <- log_calls_entries.
    symmetry. apply firstn_map. }
  split; [rewrite <- Hlen; apply succeed_count_le|].
  split; [exact Hret|]. split; [exact Ho|].
  split; rewrite Ho; destruct complete; simpl;
    try reflexivity; destruct (workout_log st) eqn:E; simpl; auto.
Qed.

(** ** C2: set numbers assigned by a save *)

(** C2, as stated, fails in its last part: saving one set for an exercise
    into a session that already holds a set of that exercise (here, after a
    first save of the same kind) stores set number 1 again, so the persisted
    numbers of the (session, exercise) pair are 1, 1 and not 1..N. *)
Lemma save_twice_repeats_set_number :
  let st := with_log [(1, [(Z2Qc 80, 5, 7)])] in
  let o1 := save_entire_workout st {| db := demo_db; faults := [] |} in
  let o2 := save_entire_workout st (final_world o1) in
  returned o1 = true /\ returned o2 = true /\
  dict_get 1 (workout_log st) = Some [(Z2Qc 80, 5, 7)] /\
  map ws_set_number
    (filter (of_pair (current_session_id st) 1)
       (workout_sets (db (final_world o2)))) = [1; 1].
Proof. vm_compute. repeat split; reflexivity. Qed.

(** C2, amended: on a save without storage failure the handler returns and
    appends exactly one row per buffered set, in buffer order; the rows
    appended for an exercise carry that exercise's buffered sets in entry
    order and the set numbers 1..N.  If the session held no row of that
    exercise before the save, these are all the persisted rows of the
    (session, exercise) pair, whose set numbers are then 1..N.  (The bounds
    on weight, reps and rpe play no part.) *)
Theorem save_assigns_set_numbers st w ex sets :
  NoDup (map fst (workout_log st)) ->
  dict_get ex (workout_log st) = Some sets ->
  fault_free (List.length (buffered_sets (workout_log st))) (faults w) = true ->
  let o := save_entire_workout st w in
  let sid := current_session_id st in
  let numbers := map Z.of_nat (seq 1 (List.length sets)) in
  returned o = true /\
  exists added,
    workout_sets (db (final_world o)) = workout_sets (db w) ++ added /\
    map entry_of added = buffered_sets (workout_log st) /\
    map entry_of (filter (of_pair sid ex) added) = sets /\
    map ws_set_number (filter (of_pair sid ex) added) = numbers /\
    (filter (of_pair sid ex) (workout_sets (db w)) = [] ->
     map ws_set_number
       (filter (of_pair sid ex) (workout_sets (db (final_world o)))) = numbers).
Proof.
  intros Hnd Hget Hff o sid numbers.
  rewrite <- log_calls_entries, length_map in Hff.
  destruct (save_entire_workout_ok st w Hff) as [Hret [Hrows _]].
  fold o in Hret, Hrows. split; [exact Hret|].
  set (added := rows_of_calls (user_id st) (current_session_id st)
                  (ws_sequence (db w)) (log_calls (workout_log st))) in *.
  assert (Hmine : map call_of (filter (of_pair sid ex) added) =
                  map (fun '(n, e) => (ex, n, e)) (enumerate 1 sets)).
  { unfold added, sid. rewrite filter_pair_rows.
    now apply filter_calls_present. }
  assert (Hentries : map entry_of (filter (of_pair sid ex) added) = sets).
  { change entry_of with (fun r => snd (call_of r)).
    rewrite <- (map_map call_of snd), Hmine, map_map.
    rewrite <- (enumerate_snd 1 sets) at 2. apply map_ext. now intros [n e]. }
  assert (Hnumbers : map ws_set_number (filter (of_pair sid ex) added) = numbers).
  { change ws_set_number with (fun r => snd (fst (call_of r))).
    rewrite <- (map_map call_of (fun c => snd (fst c))), Hmine, map_map.
    unfold numbers. rewrite <- (enumerate_fst 1 sets).
    apply map_ext. now intros [n e]. }
  exists added. repeat split; auto.
  - unfold added. rewrite entry_of_rows. apply log_calls_entries.
  - intros Hfresh. rewrite Hrows, filter_app, Hfresh. exact Hnumbers.
Qed.

Lemma save_assigns_set_numbers_witness :
  let st := with_log [(2, [(Z2Qc 60, 8, 6)]);
                      (1, [(Z2Qc 80, 5, 7); (Z2Qc 100, 5, 8)])] in
  let o := save_entire_workout st {| db := demo_db; faults := [] |} in
  returned o = true /\
  exists added,
    workout_sets (db (final_world o)) = workout_sets demo_db ++ added /\
    map entry_of added = buffered_sets (workout_log st) /\
    map entry_of (filter (of_pair 1 1) added) =
      [(Z2Qc 80, 5, 7); (Z2Qc 100, 5, 8)] /\
    map ws_set_number (filter (of_pair 1 1) added) = [1; 2] /\
    (filter (of_pair 1 1) (workout_sets demo_db) = [] ->
     map ws_set_number
       (filter (of_pair 1 1) (workout_sets (db (final_world o)))) = [1; 2]).
Proof.
  apply (save_assigns_set_numbers
           (with_log [(2, [(Z2Qc 60, 8, 6)]);
                      (1, [(Z2Qc 80, 5, 7); (Z2Qc 100, 5, 8)])])
           {| db := demo_db; faults := [] |} 1
           [(Z2Qc 80, 5, 7); (Z2Qc 100, 5, 8)]).
  - simpl. repeat constructor; simpl; intuition discriminate.
  - reflexivity.
  - reflexivity.
Defined.

(** ** Sorting and sums *)

Lemma insert_sorted_perm {A} (leb : A -> A -> bool) x l :
  Permutation (insert_sorted leb x l) (x :: l).
Proof.
  induction l as [|y l IH]; simpl.
  - apply Permutation_refl.
  - destruct (leb x y).
    + apply Permutation_refl.
    + eapply Permutation_trans; [apply perm_skip, IH | apply perm_swap].
Qed.

Lemma order_by_perm {A} (leb : A -> A -> bool) l :
  Permutation (order_by leb l) l.
Proof.
  unfold order_by. induction l as [|x l IH]; simpl.
  - constructor.
  - eapply Permutation_trans; [apply insert_sorted_perm | now constructor].
Qed.



(** ** Reading a session back *)




Lemma join_exercise_origin ws exs r :
  In r (flat_map (fun e => if ws_exercise_id ws =? e_id e
                           then [{| ss_set := ws; ss_exercise_name := e_name e |}]
                           else []) exs) ->
  ss_set r = ws.
Proof.
  rewrite in_flat_map. intros [e [_ Hr]].
  destruct (ws_exercise_id ws =? e_id e); [|contradiction].
  now destruct Hr as [<-|[]].
Qed.

(** Every joined row stems from a stored set. *)
Lemma join_session_sets_origin exs rows r :
  In r (flat_map (fun ws =>
          flat_map (fun e => if ws_exercise_id ws =? e_id e
                             then [{| ss_set := ws; ss_exercise_name := e_name e |}]
                             else []) exs) rows) ->
  In (ss_set r) rows.
Proof.
  rewrite in_flat_map. intros [ws [Hws Hr]].
  apply join_exercise_origin in Hr. now rewrite Hr.
Qed.

Lemma filter_none {A} (p : A -> bool) l :
  (forall x, In x l -> p x = false) -> filter p l = [].
Proof.
  induction l as [|x l IH]; simpl; intros H; [reflexivity|].
  rewrite (H x) by auto. apply IH. auto.
Qed.

Lemma filter_all {A} (p : A -> bool) l :
  (forall x, In x l -> p x = true) -> filter p l = l.
Proof.
  induction l as [|x l IH]; simpl; intros H; [reflexivity|].
  rewrite (H x) by auto. f_equal. apply IH. auto.
Qed.



(** ** C3: save, then read the session back *)



(** ** C4: bodyweight sets *)

Lemma Qc_eqb_true_iff a b : Qc_eqb a b = true <-> a = b.
Proof.
  unfold Qc_eqb. rewrite Qeq_bool_iff. split.
  - apply Qc_is_canon.
  - now intros ->.
Qed.

Lemma Qc_eqb_pos W : (0 < W)%Qc -> Qc_eqb W 0%Qc = false.
Proof.
  intros Hpos. destruct (Qc_eqb W 0%Qc) eqn:E; [|reflexivity].
  apply Qc_eqb_true_iff in E. subst W. now apply Qclt_not_eq in Hpos.
Qed.

Lemma dict_get_set_same {V} k (v : V) d :
  dict_get k (dict_set k v d) = Some v.
Proof.
  induction d as [|[k' v'] d IH]; simpl.
  - now rewrite Z.eqb_refl.
  - destruct (k' =? k) eqn:E; simpl; [now rewrite Z.eqb_refl | now rewrite E].
Qed.

Lemma dict_get_set_other {V} k k' (v : V) d :
  k <> k' -> dict_get k' (dict_set k v d) = dict_get k' d.
Proof.
  intros Hne. induction d as [|[k0 v0] d IH]; simpl.
  - destruct (k =? k') eqn:E; [apply Z.eqb_eq in E; contradiction | reflexivity].
  - destruct (k0 =? k) eqn:E; simpl.
    + apply Z.eqb_eq in E. subst k0.
      destruct (k =? k') eqn:E'; [apply Z.eqb_eq in E'; contradiction|].
      reflexivity.
    + destruct (k0 =? k'); [reflexivity | exact IH].
Qed.

(** C4: with the bodyweight box ticked, "Add Set" appends to the list of the
    selected exercise an entry whose resistance is the profile weight plus
    the added weight, when the profile weight is positive (and reps is at
    least 1, as the input widget guarantees); with the profile weight unset
    or zero it reports the missing body weight and leaves the buffer as it
    was.  Profile 70 and added 10 record 80. *)
Theorem add_set_bodyweight d st ex A reps rpe :
  (forall W,
     profile_weight_kg d (user_id st) = Some W -> (0 < W)%Qc -> 1 <= reps ->
     fst (add_set d st ex true A reps rpe) = st_rerun /\
     workout_log (snd (add_set d st ex true A reps rpe)) =
       dict_set ex
         (dict_get_list ex (workout_log st) ++ [((W + A)%Qc, reps, rpe)])
         (workout_log st) /\
     dict_get_list ex (workout_log (snd (add_set d st ex true A reps rpe))) =
       dict_get_list ex (workout_log st) ++ [((W + A)%Qc, reps, rpe)]) /\
  (profile_weight_kg d (user_id st) = None \/
   profile_weight_kg d (user_id st) = Some 0%Qc ->
     fst (add_set d st ex true A reps rpe) = MissingBodyweight /\
     workout_log (snd (add_set d st ex true A reps rpe)) = workout_log st) /\
  dict_get_list 1
    (workout_log (snd (add_set demo_db demo_state 1 true (Z2Qc 10) 5 7))) =
    [(Z2Qc 80, 5, 7)].
Proof.
  split; [|split].
  - intros W HW Hpos Hreps. unfold add_set, profile_weight. simpl.
    rewrite HW, (Qc_eqb_pos W Hpos). simpl.
    destruct (reps <=? 0) eqn:E; [apply Z.leb_le in E; lia|]. simpl.
    repeat split. unfold dict_get_list at 1.
    now rewrite dict_get_set_same.
  - intros HW. unfold add_set, profile_weight. simpl.
    destruct HW as [-> | ->]; simpl; split; reflexivity.
  - vm_compute. reflexivity.
Qed.

Lemma add_set_bodyweight_witness :
  (fst (add_set demo_db demo_state 1 true (Z2Qc 10) 5 7) = st_rerun /\
   workout_log (snd (add_set demo_db demo_state 1 true (Z2Qc 10) 5 7)) =
     dict_set 1
       (dict_get_list 1 (workout_log demo_state) ++
          [((Z2Qc 70 + Z2Qc 10)%Qc, 5, 7)])
       (workout_log demo_state) /\
   dict_get_list 1
     (workout_log (snd (add_set demo_db demo_state 1 true (Z2Qc 10) 5 7))) =
     dict_get_list 1 (workout_log demo_state) ++
       [((Z2Qc 70 + Z2Qc 10)%Qc, 5, 7)]) /\
  (let bob := {| user_id := 2; current_session_id := 1;
                 workout_log := [(1, [(Z2Qc 50, 5, 5)])];
                 current_exercise := Some 1; bodyweight_toggle := false |} in
   fst (add_set demo_db bob 1 true (Z2Qc 10) 5 7) = MissingBodyweight /\
   workout_log (snd (add_set demo_db bob 1 true (Z2Qc 10) 5 7)) =
     workout_log bob).
Proof.
  split.
  - apply (proj1 (add_set_bodyweight demo_db demo_state 1 (Z2Qc 10) 5 7)
             (Z2Qc 70)); [reflexivity | reflexivity | lia].
  - apply (proj1 (proj2 (add_set_bodyweight demo_db
             {| user_id := 2; current_session_id := 1;
                workout_log := [(1, [(Z2Qc 50, 5, 5)])];
                current_exercise := Some 1; bodyweight_toggle := false |}
             1 (Z2Qc 10) 5 7))).
    left. reflexivity.
Defined.

(** ** C5: deleting a session *)

Lemma transact_spec f w :
  (fault_free 1 (faults w) = true -> returned (transact f w) = true) /\
  (returned (transact f w) = true -> db (final_world (transact f w)) = f (db w)) /\
  (returned (transact f w) = false -> db (final_world (transact f w)) = db w).
Proof.
  unfold transact, fault_free. destruct w as [d [|[] fs]]; simpl;
    repeat split; auto; discriminate.
Qed.

(** C5: when [delete_session] returns (which it does unless the storage
    engine fails), no row of [workout_sets] refers to the session any more,
    [get_workout_sets_by_session] is empty for it, and the session row is
    gone; when it raises, the database is as before. *)
Theorem delete_session_no_orphans sid w :
  let o := delete_session sid w in
  (fault_free 1 (faults w) = true -> returned o = true) /\
  (returned o = true ->
     get_workout_sets_by_session (db (final_world o)) sid = [] /\
     filter (fun r => ws_session_id r =? sid)
       (workout_sets (db (final_world o))) = [] /\
     (forall r, In r (workout_sets (db (final_world o))) ->
                ws_session_id r <> sid) /\
     (forall s, In s (sessions (db (final_world o))) -> s_id s <> sid)) /\
  (returned o = false -> db (final_world o) = db w).
Proof.
  intros o. unfold o, delete_session.
  match goal with |- context [transact ?f w] =>
    destruct (transact_spec f w) as [Hok [Hdone Hfail]] end.
  split; [exact Hok|]. split; [|exact Hfail].
  intros Hret. rewrite (Hdone Hret). simpl.
  assert (Hrows : forall r,
            In r (filter (fun r => negb (ws_session_id r =? sid))
                    (workout_sets (db w))) -> ws_session_id r <> sid).
  { intros r Hr. apply filter_In in Hr. destruct Hr as [_ Hr].
    apply negb_true_iff, Z.eqb_neq in Hr. exact Hr. }
  repeat split.
  - unfold get_workout_sets_by_session.
    rewrite filter_none; [reflexivity|].
    intros r Hr. apply join_session_sets_origin in Hr. simpl in Hr.
    apply Z.eqb_neq. auto.
  - apply filter_none. intros r Hr. apply Z.eqb_neq. auto.
  - exact Hrows.
  - intros s Hs. apply filter_In in Hs. destruct Hs as [_ Hs].
    apply negb_true_iff, Z.eqb_neq in Hs. exact Hs.
Qed.

Lemma delete_session_no_orphans_witness :
  let w := final_world
             (save_entire_workout
                (with_log [(1, [(Z2Qc 80, 5, 7); (Z2Qc 100, 5, 8)])])
                {| db := demo_db; faults := [] |}) in
  let o := delete_session 1 w in
  List.length (workout_sets (db w)) = 2%nat /\
  returned o = true /\
  get_workout_sets_by_session (db (final_world o)) 1 = [] /\
  filter (fun r => ws_session_id r =? 1)
    (workout_sets (db (final_world o))) = [] /\
  (forall r, In r (workout_sets (db (final_world o))) ->
             ws_session_id r <> 1) /\
  (forall s, In s (sessions (db (final_world o))) -> s_id s <> 1).
Proof.
  intros w o. split; [reflexivity|].
  assert (Hret : returned o = true)
    by (apply (proj1 (delete_session_no_orphans 1 w)); reflexivity).
  split; [exact Hret|].
  apply (proj1 (proj2 (delete_session_no_orphans 1 w))). exact Hret.
Defined.

(** ** C8: authentication failures *)

(** Where [verify_password] returns: [authenticate_user] hands back the same
    pair [(None, None)] when no user has the given name and when the
    password does not verify against the stored hash. *)
Lemma authenticate_user_failure_uniform
  (verify_password : string -> string -> option bool) d username password :
  (find (fun u => String.eqb (u_username u) username) (users d) = None ->
   authenticate_user verify_password d username password
     = Some (None, None)) /\
  (forall row,
     find (fun u => String.eqb (u_username u) username) (users d) = Some row ->
     verify_password password (u_password_hash row) = Some false ->
     authenticate_user verify_password d username password
       = Some (None, None)).
Proof.
  unfold authenticate_user. split.
  - now intros ->.
  - intros row -> ->. reflexivity.
Qed.

Lemma authenticate_user_failure_uniform_witness :
  let verify := fun password hash : string =>
                  Some (String.eqb password "secret") in
  authenticate_user verify demo_db "zoe" "secret" = Some (None, None) /\
  authenticate_user verify demo_db "ann" "guess" = Some (None, None) /\
  authenticate_user verify demo_db "ann" "secret" = Some (Some 1, Some 0).
Proof.
  intros verify. split; [|split].
  - apply (proj1 (authenticate_user_failure_uniform verify demo_db
                    "zoe" "secret")).
    reflexivity.
  - apply (proj2 (authenticate_user_failure_uniform verify demo_db
                    "ann" "guess")
             {| u_id := 1; u_username := "ann"; u_password_hash := "$pbkdf2";
                u_is_admin := 0; u_age := None; u_weight_kg := Some (Z2Qc 70);
                u_height_cm := None; u_gender := None |});
      reflexivity.
  - reflexivity.
Defined.


(** ** C9: deleting sets by id *)

Lemma mem_Z_In x xs : mem_Z x xs = true <-> In x xs.
Proof.
  unfold mem_Z. rewrite existsb_exists. split.
  - intros [y [Hy E]]. apply Z.eqb_eq in E. now subst.
  - intros H. exists x. split; [exact H | apply Z.eqb_refl].
Qed.

(** C9: when [delete_workout_sets] returns (which it does unless the storage
    engine fails), the table holds exactly the former rows whose id is not
    in the list, each of them unchanged in every field and in its position
    relative to the others; no set number is rewritten. *)
Theorem delete_workout_sets_frame set_ids w :
  let o := delete_workout_sets set_ids w in
  (fault_free 1 (faults w) = true -> returned o = true) /\
  (returned o = true ->
     workout_sets (db (final_world o)) =
       filter (fun r => negb (mem_Z (ws_id r) set_ids)) (workout_sets (db w)) /\
     (forall r, In r (workout_sets (db (final_world o))) <->
                In r (workout_sets (db w)) /\ ~ In (ws_id r) set_ids)).
Proof.
  intros o.
  assert (Hiff : forall r,
    In r (filter (fun r => negb (mem_Z (ws_id r) set_ids))
            (workout_sets (db w))) <->
    In r (workout_sets (db w)) /\ ~ In (ws_id r) set_ids).
  { intros r. rewrite filter_In, negb_true_iff, <- mem_Z_In.
    destruct (mem_Z (ws_id r) set_ids); intuition congruence. }
  unfold o, delete_workout_sets. destruct set_ids as [|i ids].
  - simpl. split; [reflexivity|]. intros _.
    rewrite filter_all by reflexivity. split; [reflexivity|].
    intros r. simpl. tauto.
  - match goal with |- context [transact ?f w] =>
      destruct (transact_spec f w) as [Hok [Hdone _]] end.
    split; [exact Hok|]. intros Hret. rewrite (Hdone Hret). simpl.
    split; [reflexivity | exact Hiff].
Qed.

Lemma delete_workout_sets_frame_witness :
  let w := final_world
             (save_entire_workout
                (with_log [(1, [(Z2Qc 80, 5, 7); (Z2Qc 90, 5, 8);
                                (Z2Qc 100, 5, 9)])])
                {| db := demo_db; faults := [] |}) in
  let o := delete_workout_sets [2] w in
  map ws_set_number (workout_sets (db w)) = [1; 2; 3] /\
  returned o = true /\
  map ws_set_number (workout_sets (db (final_world o))) = [1; 3] /\
  workout_sets (db (final_world o)) =
    filter (fun r => negb (mem_Z (ws_id r) [2])) (workout_sets (db w)) /\
  (forall r, In r (workout_sets (db (final_world o))) <->
             In r (workout_sets (db w)) /\ ~ In (ws_id r) [2]).
Proof.
  intros w o. split; [reflexivity|].
  assert (Hret : returned o = true)
    by (apply (proj1 (delete_workout_sets_frame [2] w)); reflexivity).
  split; [exact Hret|]. split; [reflexivity|].
  apply (proj2 (delete_workout_sets_frame [2] w)). exact Hret.
Defined.

(** ** C10: exercise search with empty filters *)

Lemma order_by_In {A} (leb : A -> A -> bool) l x :
  In x (order_by leb l) <-> In x l.
Proof.
  split; apply Permutation_in;
    [apply order_by_perm | apply Permutation_sym, order_by_perm].
Qed.

Lemma distinct_In {A} (eqb : A -> A -> bool) l x :
  (forall a b, eqb a b = true -> a = b) ->
  In x (distinct eqb l) <-> In x l.
Proof.
  intros Heqb. induction l as [|y l IH]; simpl; [tauto|].
  rewrite filter_In, IH. split.
  - intros [H|[H _]]; auto.
  - intros [H|H]; [auto|].
    destruct (eqb y x) eqn:E; [left; now apply Heqb | right; auto].
Qed.

Lemma exercise_row_eqb_eq a b : exercise_row_eqb a b = true -> a = b.
Proof.
  unfold exercise_row_eqb. destruct a, b; simpl.
  rewrite !andb_true_iff, Z.eqb_eq, !String.eqb_eq.
  intros [[-> ->] ->]. reflexivity.
Qed.

Lemma left_join_categories_In d e oc :
  In (e, oc) (left_join_categories d) <->
  In e (exercises d) /\
  match oc with
  | Some c => In {| ec_exercise_id := e_id e; ec_category_id := c |}
                (exercise_categories d)
  | None => forall ec, In ec (exercise_categories d) ->
                       ec_exercise_id ec <> e_id e
  end.
Proof.
  unfold left_join_categories. rewrite in_flat_map.
  assert (Hf : forall e' ec,
    In ec (filter (fun ec => e_id e' =? ec_exercise_id ec)
             (exercise_categories d)) <->
    In ec (exercise_categories d) /\ ec_exercise_id ec = e_id e').
  { intros e' ec. rewrite filter_In, Z.eqb_eq. intuition congruence. }
  split.
  - intros [e' [He' Hin]].
    destruct (filter _ (exercise_categories d)) as [|ec0 ecs] eqn:Hfil.
    + destruct Hin as [Hin|[]]. injection Hin as -> <-.
      split; [exact He'|]. intros ec Hec Heq.
      assert (Hmem : In ec []) by (rewrite <- Hfil; apply Hf; auto).
      exact Hmem.
    + rewrite <- Hfil in Hin. apply in_map_iff in Hin.
      destruct Hin as [ec [Hpair Hec]]. injection Hpair as -> <-.
      split; [exact He'|]. apply Hf in Hec. destruct Hec as [Hec Hid].
      destruct ec as [x c]; simpl in *. now subst x.
  - intros [He Hoc]. exists e. split; [exact He|].
    destruct oc as [c|].
    + assert (Hmem : In {| ec_exercise_id := e_id e; ec_category_id := c |}
                       (filter (fun ec => e_id e =? ec_exercise_id ec)
                          (exercise_categories d))) by (apply Hf; auto).
      destruct (filter _ (exercise_categories d)) as [|ec0 ecs] eqn:Hfil;
        [contradiction|].
      apply in_map_iff. eexists. split; [|exact Hmem]. reflexivity.
    + destruct (filter _ (exercise_categories d)) as [|ec0 ecs] eqn:Hfil;
        [now left|].
      exfalso. assert (Hmem : In ec0 (ec0 :: ecs)) by now left.
      rewrite <- Hfil in Hmem. apply Hf in Hmem. destruct Hmem as [H1 H2].
      exact (Hoc ec0 H1 H2).
Qed.

(** Every exercise has at least one row in the left join. *)
Lemma left_join_categories_total d e :
  In e (map fst (left_join_categories d)) <-> In e (exercises d).
Proof.
  rewrite in_map_iff. split.
  - intros [[e' oc] [<- Hin]]. now apply left_join_categories_In in Hin.
  - intros He.
    destruct (filter (fun ec => e_id e =? ec_exercise_id ec)
                (exercise_categories d)) as [|ec0 ecs] eqn:Hfil.
    + exists (e, None). split; [reflexivity|].
      apply left_join_categories_In. split; [exact He|].
      intros ec Hec Heq.
      assert (Hmem : In ec []).
      { rewrite <- Hfil. apply filter_In. split; [exact Hec|].
        apply Z.eqb_eq. congruence. }
      exact Hmem.
    + exists (e, Some (ec_category_id ec0)). split; [reflexivity|].
      apply left_join_categories_In. split; [exact He|].
      assert (Hmem : In ec0 (ec0 :: ecs)) by now left.
      rewrite <- Hfil in Hmem. apply filter_In in Hmem.
      destruct Hmem as [Hmem Hid]. apply Z.eqb_eq in Hid.
      destruct ec0 as [x c]; simpl in *. now subst x.
Qed.

Lemma get_exercises_In d category_ids search_term e :
  In e (get_exercises d category_ids search_term) <->
  In e (exercises d) /\
  match category_ids with
  | Some (c :: cs) =>
      exists c', In c' (c :: cs) /\
                 In {| ec_exercise_id := e_id e; ec_category_id := c' |}
                   (exercise_categories d)
  | Some [] | None => True
  end /\
  match search_term with
  | EmptyString => True
  | String _ _ => name_like search_term e = true
  end.
Proof.
  unfold get_exercises.
  rewrite order_by_In, (distinct_In _ _ _ exercise_row_eqb_eq), in_map_iff.
  set (j1 := match category_ids with
             | Some (c :: cs) =>
                 filter (fun r => category_in (c :: cs) (snd r))
                   (left_join_categories d)
             | _ => left_join_categories d
             end).
  assert (H1 : forall e oc, In (e, oc) j1 <->
            In (e, oc) (left_join_categories d) /\
            match category_ids with
            | Some (c :: cs) => category_in (c :: cs) oc = true
            | _ => True
            end).
  { intros e0 oc. unfold j1. destruct category_ids as [[|c cs]|];
      try tauto. now rewrite filter_In. }
  assert (H2 : forall e oc,
            In (e, oc) match search_term with
                       | EmptyString => j1
                       | String _ _ =>
                           filter (fun r => name_like search_term (fst r)) j1
                       end <->
            In (e, oc) j1 /\
            match search_term with
            | EmptyString => True
            | String _ _ => name_like search_term e = true
            end).
  { intros e0 oc. destruct search_term; [tauto|]. now rewrite filter_In. }
  split.
  - intros [[e' oc] [<- Hin]]. simpl.
    apply H2 in Hin. destruct Hin as [Hin Hname].
    apply H1 in Hin. destruct Hin as [Hin Hcat].
    apply left_join_categories_In in Hin. destruct Hin as [He Hoc].
    repeat split; auto.
    destruct category_ids as [[|c cs]|]; auto.
    destruct oc as [c'|]; [|discriminate].
    exists c'. split; [exact (proj1 (mem_Z_In c' (c :: cs)) Hcat) | exact Hoc].
  - intros [He [Hcat Hname]].
    assert (Hex : exists oc, In (e, oc) j1).
    { destruct category_ids as [[|c cs]|].
      - apply left_join_categories_total in He. apply in_map_iff in He.
        destruct He as [[e' oc] [<- Hin]]. exists oc. now apply H1.
      - destruct Hcat as [c' [Hc' Hec]]. exists (Some c'). apply H1.
        split; [apply left_join_categories_In; auto|].
        exact (proj2 (mem_Z_In c' (c :: cs)) Hc').
      - apply left_join_categories_total in He. apply in_map_iff in He.
        destruct He as [[e' oc] [<- Hin]]. exists oc. now apply H1. }
    destruct Hex as [oc Hoc]. exists (e, oc). split; [reflexivity|].
    apply H2. auto.
Qed.

(** C10: [get_exercises] called with [None] or with the empty list of
    category ids applies no category condition: it returns the same rows in
    both cases, namely every exercise that passes the name filter, whether
    or not it has a category.  With the empty search string no name
    condition is applied either, so only the category condition (if any)
    remains.  On the sample data, the empty list yields all three exercises,
    while the list [[1]] yields only the one of category 1. *)
Theorem get_exercises_empty_filters d category_ids search_term :
  get_exercises d (Some []) search_term = get_exercises d None search_term /\
  search_exercises d [] search_term = get_exercises d None search_term /\
  (forall e,
     In e (get_exercises d (Some []) search_term) <->
     In e (exercises d) /\
     (search_term = EmptyString \/ name_like search_term e = true)) /\
  (forall e,
     In e (get_exercises d category_ids EmptyString) <->
     In e (exercises d) /\
     match category_ids with
     | Some (c :: cs) =>
         exists c', In c' (c :: cs) /\
                    In {| ec_exercise_id := e_id e; ec_category_id := c' |}
                      (exercise_categories d)
     | Some [] | None => True
     end) /\
  (forall e, In e (get_exercises d (Some []) EmptyString) <->
             In e (exercises d)) /\
  map e_name (get_exercises demo_db (Some []) EmptyString) =
    ["Bench Press"; "Plank"; "Squat"]%string /\
  map e_name (get_exercises demo_db (Some [1]) EmptyString) =
    ["Squat"]%string.
Proof.
  split; [reflexivity|]. split; [reflexivity|].
  split; [|split; [|split; [|split; reflexivity]]].
  - intros e. rewrite get_exercises_In.
    destruct search_term; intuition discriminate.
  - intros e. rewrite get_exercises_In. tauto.
  - intros e. rewrite get_exercises_In. tauto.
Qed.

(** ** C6 and C7: the estimated one-rep max *)

Lemma Z2Qc_neg z : z < 0 -> (Z2Qc z < 0)%Qc.
Proof.
  intros Hz. unfold Z2Qc, Qclt, Q2Qc. cbn [this]. rewrite !Qred_correct.
  unfold Qlt. simpl. lia.
Qed.

Lemma Z2Qc_nonneg z : 0 <= z -> (0 <= Z2Qc z)%Qc.
Proof.
  intros Hz. unfold Z2Qc, Qcle, Q2Qc. cbn [this]. rewrite !Qred_correct.
  unfold Qle. simpl. lia.
Qed.

Lemma Qdiv_nonneg_neg (a b : Q) : (0 <= a)%Q -> (b < 0)%Q -> (a * / b <= 0)%Q.
Proof.
  destruct a as [an ad], b as [bn bd]. unfold Qle, Qlt, Qmult, Qinv. simpl.
  intros Ha Hb. destruct bn as [|p|p]; simpl; try lia.
Qed.

Lemma Qcdiv_nonneg_neg x y : (0 <= x)%Qc -> (y < 0)%Qc -> (x / y <= 0)%Qc.
Proof.
  intros Hx Hy. unfold Qcle, Qcdiv, Qcmult, Qcinv, Q2Qc. cbn [this].
  rewrite !Qred_correct. now apply Qdiv_nonneg_neg.
Qed.

Lemma Qcmult_nonneg x y : (0 <= x)%Qc -> (0 <= y)%Qc -> (0 <= x * y)%Qc.
Proof.
  intros Hx Hy. unfold Qcle, Qcmult, Q2Qc. cbn [this]. rewrite !Qred_correct.
  now apply Qmult_le_0_compat.
Qed.

Lemma one_rm_below_37 weight reps :
  reps < 37 ->
  one_rm weight reps = Finite (weight * Z2Qc 36 / Z2Qc (37 - reps))%Qc.
Proof.
  intros H. unfold one_rm, float_div.
  destruct (37 - reps =? 0) eqn:E; [apply Z.eqb_eq in E; lia | reflexivity].
Qed.

Lemma one_rm_at_37 weight :
  (0 <= weight)%Qc ->
  one_rm weight 37 = if Qc_eqb weight 0%Qc then NaN else PosInf.
Proof.
  intros Hw. unfold one_rm, float_div. simpl.
  destruct (Qc_eqb weight 0%Qc) eqn:E.
  - apply Qc_eqb_true_iff in E. subst. reflexivity.
  - destruct (weight * Z2Qc 36 ?= 0)%Qc eqn:C.
    + apply Qceq_alt in C. apply Qcmult_integral in C.
      destruct C as [C|C]; [|discriminate].
      apply Qc_eqb_true_iff in C. congruence.
    + apply Qclt_alt in C. apply Qclt_not_le in C. exfalso. apply C.
      apply Qcmult_nonneg; [exact Hw | now apply Z2Qc_nonneg].
    + reflexivity.
Qed.

Lemma one_rm_above_37 weight reps :
  37 < reps -> (0 <= weight)%Qc ->
  one_rm weight reps = Finite (weight * Z2Qc 36 / Z2Qc (37 - reps))%Qc /\
  (weight * Z2Qc 36 / Z2Qc (37 - reps) <= 0)%Qc.
Proof.
  intros Hr Hw. split.
  - unfold one_rm, float_div.
    destruct (37 - reps =? 0) eqn:E; [apply Z.eqb_eq in E; lia | reflexivity].
  - apply Qcdiv_nonneg_neg.
    + apply Qcmult_nonneg; [exact Hw | now apply Z2Qc_nonneg].
    + apply Z2Qc_neg. lia.
Qed.

Lemma one_rm_100_5 : one_rm (Z2Qc 100) 5 = Finite (Q2Qc (225 # 2)).
Proof. unfold one_rm, float_div. simpl. f_equal. now apply Qc_is_canon. Qed.

Lemma one_rm_100_40 : one_rm (Z2Qc 100) 40 = Finite (Z2Qc (-1200)).
Proof. unfold one_rm, float_div. simpl. f_equal. now apply Qc_is_canon. Qed.

Lemma volume_load_100_5 : volume_load (Z2Qc 100) 5 = Z2Qc 500.
Proof. now apply Qc_is_canon. Qed.

Lemma Forall2_map_r {A B} (P : A -> B -> Prop) (f : A -> B) l :
  (forall x, P x (f x)) -> Forall2 P l (map f l).
Proof. intros H. induction l; simpl; constructor; auto. Qed.

(** C6: for a set with fewer than 37 reps the reports compute the estimated
    one-rep max as weight * 36 / (37 - reps): this is the value of [one_rm],
    hence of every entry of the 1RM column of the "By Exercise" report whose
    row has reps < 37, and the volume-load column holds weight * reps.  For
    a persisted set of weight 100 and 5 reps both reports show 112.5 and a
    volume load of 500. *)
Theorem report_one_rm_brzycki d uid exercise_id :
  (forall weight reps,
     reps < 37 ->
     one_rm weight reps = Finite (weight * Z2Qc 36 / Z2Qc (37 - reps))%Qc) /\
  match report_by_exercise d uid exercise_id with
  | Some rep =>
      Forall2 (fun r v =>
                 ws_reps (us_set r) < 37 ->
                 v = Finite (ws_weight (us_set r) * Z2Qc 36
                             / Z2Qc (37 - ws_reps (us_set r)))%Qc)
        (get_user_workout_sets d uid (Some exercise_id)) (one_rm_column rep) /\
      Forall2 (fun r v =>
                 v = (ws_weight (us_set r) * Z2Qc (ws_reps (us_set r)))%Qc)
        (get_user_workout_sets d uid (Some exercise_id))
        (volume_load_column rep)
  | None => get_user_workout_sets d uid (Some exercise_id) = []
  end /\
  one_rm (Z2Qc 100) 5 = Finite (Q2Qc (225 # 2)) /\
  volume_load (Z2Qc 100) 5 = Z2Qc 500 /\
  (let d := saved [(1, [(Z2Qc 100, 5, 7)])] in
   option_map one_rm_column (report_by_exercise d 1 1) =
     Some [Finite (Q2Qc (225 # 2))] /\
   option_map daily_max (report_by_exercise d 1 1) =
     Some [("2024-01-01"%string, Finite (Q2Qc (225 # 2)))] /\
   option_map daily_volume_load (report_by_exercise d 1 1) =
     Some [("2024-01-01"%string, Z2Qc 500)] /\
   option_map (fun r => map (fun x => (ex_name x, ex_1rm x, ex_volume_load x))
                          (details r))
     (report_by_session d 1) =
     Some [("Squat"%string, Finite (Q2Qc (225 # 2)), Z2Qc 500)]).
Proof.
  split; [exact one_rm_below_37|].
  split.
  - unfold report_by_exercise.
    destruct (get_user_workout_sets d uid (Some exercise_id)) as [|r0 data];
      [reflexivity|].
    cbn [one_rm_column volume_load_column]. split.
    + apply Forall2_map_r. intros r Hr. now apply one_rm_below_37.
    + apply Forall2_map_r. intros r. reflexivity.
  - split; [exact one_rm_100_5|]. split; [exact volume_load_100_5|].
    cbv zeta. rewrite <- one_rm_100_5, <- volume_load_100_5.
    repeat split; vm_compute; reflexivity.
Qed.

Lemma report_one_rm_brzycki_witness :
  one_rm (Z2Qc 100) 5 = Finite (Z2Qc 100 * Z2Qc 36 / Z2Qc (37 - 5))%Qc.
Proof.
  apply (proj1 (report_one_rm_brzycki demo_db 1 1) (Z2Qc 100) 5). lia.
Defined.

(** C7, as stated, fails: "Add Set" accepts 40 reps and 37 reps at weight
    100, the save persists them, and the "By Exercise" report neither drops
    the sets nor reports not-a-number: for 40 reps the 1RM column and the
    plotted daily maximum hold the finite value -1200, and for 37 reps the
    divisor 37 - reps is 0 and the value is +infinity. *)
Lemma one_rm_reps_above_36_reported :
  let run := fun reps =>
    add_set demo_db (select_exercise demo_state 1) 1 false (Z2Qc 100) reps 7 in
  let stored := fun reps =>
    db (final_world (save_entire_workout (snd (run reps))
                       {| db := demo_db; faults := [] |})) in
  fst (run 40) = st_rerun /\
  map ws_reps (workout_sets (stored 40)) = [40] /\
  option_map one_rm_column (report_by_exercise (stored 40) 1 1) =
    Some [Finite (Z2Qc (-1200))] /\
  option_map daily_max (report_by_exercise (stored 40) 1 1) =
    Some [("2024-01-01"%string, Finite (Z2Qc (-1200)))] /\
  fst (run 37) = st_rerun /\
  map (fun r => 37 - ws_reps r) (workout_sets (stored 37)) = [0] /\
  option_map one_rm_column (report_by_exercise (stored 37) 1 1) =
    Some [PosInf] /\
  option_map daily_max (report_by_exercise (stored 37) 1 1) =
    Some [("2024-01-01"%string, PosInf)].
Proof.
  cbv zeta. rewrite <- one_rm_100_40.
  repeat split; vm_compute; reflexivity.
Qed.

(** C7, amended: a set with more than 36 reps (and a weight that is not
    negative) is not rejected by "Add Set", which only asks for reps >= 1,
    and the "By Exercise" report computes weight * 36 / (37 - reps) for every
    row it reads, without a guard.  For 37 reps the divisor is zero and the
    value is +infinity, or not-a-number when the weight is 0; for more than
    37 reps the value is the finite number weight * 36 / (37 - reps), which
    is not positive. *)
Theorem one_rm_reps_above_36 weight reps :
  36 < reps -> (0 <= weight)%Qc ->
  (forall d st ex rpe,
     fst (add_set d st ex false weight reps rpe) = st_rerun /\
     dict_get_list ex
       (workout_log (snd (add_set d st ex false weight reps rpe))) =
       dict_get_list ex (workout_log st) ++ [(weight, reps, rpe)]) /\
  (reps = 37 ->
   one_rm weight reps = if Qc_eqb weight 0%Qc then NaN else PosInf) /\
  (37 < reps ->
   one_rm weight reps = Finite (weight * Z2Qc 36 / Z2Qc (37 - reps))%Qc /\
   (weight * Z2Qc 36 / Z2Qc (37 - reps) <= 0)%Qc) /\
  (forall d uid ex rep,
     report_by_exercise d uid ex = Some rep ->
     one_rm_column rep =
       map row_one_rm (get_user_workout_sets d uid (Some ex))).
Proof.
  intros Hreps Hw. repeat split.
  - unfold add_set. simpl.
    destruct (reps <=? 0) eqn:E; [apply Z.leb_le in E; lia | reflexivity].
  - unfold add_set. simpl.
    destruct (reps <=? 0) eqn:E; [apply Z.leb_le in E; lia|]. simpl.
    unfold dict_get_list at 1. now rewrite dict_get_set_same.
  - intros ->. now apply one_rm_at_37.
  - now apply one_rm_above_37.
  - now apply one_rm_above_37.
  - intros d uid ex rep. unfold report_by_exercise.
    destruct (get_user_workout_sets d uid (Some ex)) as [|r0 data];
      [discriminate|].
    intros H. injection H as <-. reflexivity.
Qed.

Lemma one_rm_reps_above_36_witness :
  (one_rm (Z2Qc 100) 40 =
     Finite (Z2Qc 100 * Z2Qc 36 / Z2Qc (37 - 40))%Qc /\
   (Z2Qc 100 * Z2Qc 36 / Z2Qc (37 - 40) <= 0)%Qc) /\
  one_rm (Z2Qc 100) 37 = (if Qc_eqb (Z2Qc 100) 0%Qc then NaN else PosInf) /\
  one_rm 0%Qc 37 = (if Qc_eqb 0%Qc 0%Qc then NaN else PosInf).
Proof.
  assert (H100 : (0 <= Z2Qc 100)%Qc) by (vm_compute; discriminate).
  assert (H0 : (0 <= 0)%Qc) by (vm_compute; discriminate).
  split; [|split].
  - apply (proj1 (proj2 (proj2 (one_rm_reps_above_36 (Z2Qc 100) 40
                                  ltac:(lia) H100)))).
    lia.
  - apply (proj1 (proj2 (one_rm_reps_above_36 (Z2Qc 100) 37
                           ltac:(lia) H100))).
    reflexivity.
  - apply (proj1 (proj2 (one_rm_reps_above_36 0%Qc 37 ltac:(lia) H0))).
    reflexivity.
Defined.

(** * Further properties of the code *)

(** ** The buffer of the "Log Workout" tab *)

Lemma dict_set_keys {V} k (v : V) d x :
  In x (map fst (dict_set k v d)) <-> x = k \/ In x (map fst d).
Proof.
  induction d as [|[k' v'] d IH]; simpl.
  - intuition.
  - destruct (k' =? k) eqn:E; simpl.
    + apply Z.eqb_eq in E. subst k'. intuition.
    + rewrite IH. intuition.
Qed.

Lemma dict_set_NoDup {V} k (v : V) d :
  NoDup (map fst d) -> NoDup (map fst (dict_set k v d)).
Proof.
  induction d as [|[k' v'] d IH]; simpl; intros Hnd.
  - constructor; [intros [] | constructor].
  - inversion Hnd as [|? ? Hnin Hnd']; subst.
    destruct (k' =? k) eqn:E; simpl.
    + apply Z.eqb_eq in E. subst k'. now constructor.
    + constructor; [|auto]. rewrite dict_set_keys.
      apply Z.eqb_neq in E. intuition.
Qed.

Lemma dict_get_list_set_same {V} k (v : list V) d :
  dict_get_list k (dict_set k v d) = v.
Proof. unfold dict_get_list. now rewrite dict_get_set_same. Qed.

Lemma dict_get_list_set_other {V} k k' (v : list V) d :
  k <> k' -> dict_get_list k' (dict_set k v d) = dict_get_list k' d.
Proof. intros H. unfold dict_get_list. now rewrite dict_get_set_other. Qed.

(** X1: The keys of [workout_log] stay pairwise distinct under every handler
    that writes the buffer: selecting an exercise, adding a set, duplicating
    the last set, clearing an exercise and the reset after a save. *)
Theorem buffer_keys_stay_unique d st ex bodyweight added_weight reps rpe :
  NoDup (map fst (workout_log st)) ->
  NoDup (map fst (workout_log (select_exercise st ex))) /\
  NoDup (map fst (workout_log
                    (snd (add_set d st ex bodyweight added_weight reps rpe)))) /\
  NoDup (map fst (workout_log (duplicate_last_set st ex))) /\
  NoDup (map fst (workout_log (clear_sets st ex))) /\
  NoDup (map fst (workout_log (reset_log st))).
Proof.
  intros Hnd. repeat split.
  - unfold select_exercise.
    destruct (current_exercise st) as [cur|];
      [destruct (cur =? ex)|]; simpl; auto;
      destruct (dict_get ex (workout_log st)); auto using dict_set_NoDup.
  - unfold add_set.
    destruct (bodyweight && _); [exact Hnd|].
    destruct (reps <=? 0); [exact Hnd|]. simpl. now apply dict_set_NoDup.
  - unfold duplicate_last_set.
    destruct (rev _); simpl; auto using dict_set_NoDup.
  - unfold clear_sets.
    destruct (dict_get_list _ _); simpl; auto using dict_set_NoDup.
  - constructor.
Qed.

Lemma buffer_keys_stay_unique_witness :
  let st := with_log [(2, [(Z2Qc 60, 8, 6)]); (1, [(Z2Qc 80, 5, 7)])] in
  NoDup (map fst (workout_log (select_exercise st 3))) /\
  NoDup (map fst (workout_log (snd (add_set demo_db st 3 true (Z2Qc 10) 5 7)))) /\
  NoDup (map fst (workout_log (duplicate_last_set st 3))) /\
  NoDup (map fst (workout_log (clear_sets st 3))) /\
  NoDup (map fst (workout_log (reset_log st))).
Proof.
  apply (buffer_keys_stay_unique demo_db
           (with_log [(2, [(Z2Qc 60, 8, 6)]); (1, [(Z2Qc 80, 5, 7)])])
           3 true (Z2Qc 10) 5 7).
  simpl. repeat constructor; simpl; intuition discriminate.
Defined.

(** X2: "Add Set" touches the list of the selected exercise only, and that list
    either stays as it is (when the click is refused) or grows by one entry
    at its end, made of the reps and rpe entered. *)
Theorem add_set_touches_selected_only d st ex bodyweight added_weight reps rpe :
  let st' := snd (add_set d st ex bodyweight added_weight reps rpe) in
  (forall ex', ex' <> ex ->
     dict_get_list ex' (workout_log st') = dict_get_list ex' (workout_log st)) /\
  (dict_get_list ex (workout_log st') = dict_get_list ex (workout_log st) \/
   exists total_weight,
     dict_get_list ex (workout_log st') =
       dict_get_list ex (workout_log st) ++ [(total_weight, reps, rpe)]).
Proof.
  unfold add_set.
  destruct (bodyweight && _); [simpl; auto|].
  destruct (reps <=? 0); [simpl; auto|]. simpl. split.
  - intros ex' Hne. apply dict_get_list_set_other. congruence.
  - right. eexists. apply dict_get_list_set_same.
Qed.

Lemma add_set_touches_selected_only_witness :
  let st := with_log [(2, [(Z2Qc 60, 8, 6)]); (1, [(Z2Qc 80, 5, 7)])] in
  dict_get_list 2
    (workout_log (snd (add_set demo_db st 1 false (Z2Qc 100) 5 8))) =
  dict_get_list 2 (workout_log st).
Proof.
  intros st.
  apply (proj1 (add_set_touches_selected_only demo_db st 1 false (Z2Qc 100)
                  5 8) 2).
  discriminate.
Defined.

(** X3: Without the bodyweight box, "Add Set" records the weight exactly as
    entered, whatever the profile holds, when reps is at least 1; with reps
    below 1 it answers "Reps must be at least 1." and the buffer stays as it
    was. *)
Theorem add_set_plain_weight d st ex weight reps rpe :
  (1 <= reps ->
   fst (add_set d st ex false weight reps rpe) = st_rerun /\
   dict_get_list ex
     (workout_log (snd (add_set d st ex false weight reps rpe))) =
     dict_get_list ex (workout_log st) ++ [(weight, reps, rpe)]) /\
  (reps <= 0 ->
   fst (add_set d st ex false weight reps rpe) = InvalidReps /\
   workout_log (snd (add_set d st ex false weight reps rpe)) = workout_log st).
Proof.
  unfold add_set. simpl. split; intros H.
  - destruct (reps <=? 0) eqn:E; [apply Z.leb_le in E; lia|]. simpl.
    split; [reflexivity | apply dict_get_list_set_same].
  - destruct (reps <=? 0) eqn:E; [|apply Z.leb_gt in E; lia]. simpl. auto.
Qed.

Lemma add_set_plain_weight_witness :
  (fst (add_set demo_db demo_state 1 false (Z2Qc 100) 5 7) = st_rerun /\
   dict_get_list 1
     (workout_log (snd (add_set demo_db demo_state 1 false (Z2Qc 100) 5 7))) =
     dict_get_list 1 (workout_log demo_state) ++ [(Z2Qc 100, 5, 7)]) /\
  (fst (add_set demo_db demo_state 1 false (Z2Qc 100) 0 7) = InvalidReps /\
   workout_log (snd (add_set demo_db demo_state 1 false (Z2Qc 100) 0 7)) =
     workout_log demo_state).
Proof.
  split.
  - apply (proj1 (add_set_plain_weight demo_db demo_state 1 (Z2Qc 100) 5 7)).
    lia.
  - apply (proj2 (add_set_plain_weight demo_db demo_state 1 (Z2Qc 100) 0 7)).
    lia.
Defined.

(** X4: "Duplicate Last Set" appends a copy of the last buffered set of the
    selected exercise and leaves the other exercises alone; on an empty list
    it does nothing. *)
Theorem duplicate_last_set_copies_last st ex :
  (forall sets last,
     dict_get_list ex (workout_log st) = sets ++ [last] ->
     dict_get_list ex (workout_log (duplicate_last_set st ex)) =
       sets ++ [last; last]) /\
  (dict_get_list ex (workout_log st) = [] -> duplicate_last_set st ex = st) /\
  (forall ex', ex' <> ex ->
     dict_get_list ex' (workout_log (duplicate_last_set st ex)) =
     dict_get_list ex' (workout_log st)).
Proof.
  unfold duplicate_last_set. repeat split.
  - intros sets last H. rewrite H, rev_app_distr. simpl.
    rewrite dict_get_list_set_same, <- app_assoc. reflexivity.
  - intros H. now rewrite H.
  - intros ex' Hne. destruct (rev _); simpl; [reflexivity|].
    apply dict_get_list_set_other. congruence.
Qed.

Lemma duplicate_last_set_copies_last_witness :
  let st := with_log [(1, [(Z2Qc 80, 5, 7); (Z2Qc 100, 5, 8)])] in
  dict_get_list 1 (workout_log (duplicate_last_set st 1)) =
    [(Z2Qc 80, 5, 7)] ++ [(Z2Qc 100, 5, 8); (Z2Qc 100, 5, 8)] /\
  duplicate_last_set st 2 = st.
Proof.
  intros st. split.
  - apply (proj1 (duplicate_last_set_copies_last st 1)). reflexivity.
  - apply (proj1 (proj2 (duplicate_last_set_copies_last st 2))). reflexivity.
Defined.

Lemma dict_get_none {V} k (d : list (Z * V)) :
  dict_get k d = None -> ~ In k (map fst d).
Proof.
  induction d as [|[k' v'] d IH]; simpl; [tauto|].
  destruct (k' =? k) eqn:E; [discriminate|].
  apply Z.eqb_neq in E. intuition.
Qed.

(** The calls a save makes for one exercise are those of its buffered list,
    numbered from 1. *)
Lemma filter_calls_exercise ex log :
  NoDup (map fst log) ->
  filter (fun c => fst (fst c) =? ex) (log_calls log) =
  map (fun '(n, e) => (ex, n, e)) (enumerate 1 (dict_get_list ex log)).
Proof.
  intros Hnd. unfold dict_get_list.
  destruct (dict_get ex log) as [sets|] eqn:Hget.
  - now apply filter_calls_present.
  - apply filter_calls_absent. now apply dict_get_none.
Qed.

(** X5: "Clear Sets for This Exercise" empties the list of the selected
    exercise and no other; a save that follows (without storage failure)
    adds no row for that exercise to the session. *)
Theorem clear_sets_then_save st w ex :
  NoDup (map fst (workout_log st)) ->
  let st' := clear_sets st ex in
  let sid := current_session_id st in
  dict_get_list ex (workout_log st') = [] /\
  (forall ex', ex' <> ex ->
     dict_get_list ex' (workout_log st') = dict_get_list ex' (workout_log st)) /\
  (fault_free (List.length (buffered_sets (workout_log st'))) (faults w) = true ->
   returned (save_entire_workout st' w) = true /\
   filter (of_pair sid ex)
     (workout_sets (db (final_world (save_entire_workout st' w)))) =
   filter (of_pair sid ex) (workout_sets (db w))).
Proof.
  intros Hnd st' sid.
  assert (Hempty : dict_get_list ex (workout_log st') = []).
  { unfold st', clear_sets.
    destruct (dict_get_list ex (workout_log st)) eqn:E; [exact E|].
    simpl. apply dict_get_list_set_same. }
  assert (Hnd' : NoDup (map fst (workout_log st'))).
  { unfold st', clear_sets.
    destruct (dict_get_list ex (workout_log st)); simpl;
      auto using dict_set_NoDup. }
  assert (Hsid : current_session_id st' = sid).
  { unfold st', clear_sets.
    destruct (dict_get_list ex (workout_log st)); reflexivity. }
  split; [exact Hempty|]. split.
  - intros ex' Hne. unfold st', clear_sets.
    destruct (dict_get_list ex (workout_log st)); simpl; [reflexivity|].
    apply dict_get_list_set_other. congruence.
  - intros Hff. rewrite <- log_calls_entries, length_map in Hff.
    destruct (save_entire_workout_ok st' w Hff) as [Hret [Hrows _]].
    split; [exact Hret|]. rewrite Hrows, filter_app, Hsid.
    assert (Hnone : filter (of_pair sid ex)
                      (rows_of_calls (user_id st') sid (ws_sequence (db w))
                         (log_calls (workout_log st'))) = []).
    { apply (map_eq_nil call_of). rewrite filter_pair_rows.
      rewrite filter_calls_exercise by assumption. now rewrite Hempty. }
    rewrite Hnone. apply app_nil_r.
Qed.

Lemma clear_sets_then_save_witness :
  let st := with_log [(2, [(Z2Qc 60, 8, 6)]); (1, [(Z2Qc 80, 5, 7)])] in
  let w := {| db := saved [(1, [(Z2Qc 70, 5, 7)])]; faults := [] |} in
  dict_get_list 1 (workout_log (clear_sets st 1)) = [] /\
  (forall ex', ex' <> 1 ->
     dict_get_list ex' (workout_log (clear_sets st 1)) =
     dict_get_list ex' (workout_log st)) /\
  (fault_free (List.length (buffered_sets (workout_log (clear_sets st 1))))
     (faults w) = true ->
   returned (save_entire_workout (clear_sets st 1) w) = true /\
   filter (of_pair 1 1)
     (workout_sets (db (final_world (save_entire_workout (clear_sets st 1) w)))) =
   filter (of_pair 1 1) (workout_sets (db w))).
Proof.
  apply (clear_sets_then_save
           (with_log [(2, [(Z2Qc 60, 8, 6)]); (1, [(Z2Qc 80, 5, 7)])])
           {| db := saved [(1, [(Z2Qc 70, 5, 7)])]; faults := [] |} 1).
  simpl. repeat constructor; simpl; intuition discriminate.
Defined.

(** ** Edge cases of the save *)

(** X6: A save with no buffered set never opens a transaction and leaves the
    world as it is.  With an empty dict it warns "No sets to save."; with a
    dict that only holds empty lists (an exercise was selected, or its sets
    were cleared) it answers "Workout saved!" and resets the state, although
    nothing was written. *)
Theorem save_nothing_buffered st w :
  buffered_sets (workout_log st) = [] ->
  save_entire_workout st w =
    Returned
      match workout_log st with
      | [] => (st_warning "No sets to save.", st)
      | _ :: _ => (st_success "Workout saved!", reset_log st)
      end
      w.
Proof.
  intros Hbuf. unfold save_entire_workout.
  destruct (workout_log st) as [|p log] eqn:Hlog; [reflexivity|].
  rewrite <- Hlog. unfold bind. rewrite save_loop_flat.
  assert (E : log_calls (workout_log st) = []).
  { apply (map_eq_nil snd). rewrite log_calls_entries, Hlog. exact Hbuf. }
  rewrite E. reflexivity.
Qed.

Lemma save_nothing_buffered_witness :
  let st := select_exercise demo_state 1 in
  let w := {| db := demo_db; faults := [true] |} in
  workout_log st = [(1, [])] /\
  save_entire_workout st w =
    Returned (st_success "Workout saved!", reset_log st) w.
Proof.
  split; [reflexivity|].
  apply (save_nothing_buffered (select_exercise demo_state 1)
           {| db := demo_db; faults := [true] |}).
  reflexivity.
Defined.

(** X7: A save that fails after [j] of its writes leaves the buffer in place
    (the handler raised before the reset); saving the same buffer again,
    this time without failure, writes every buffered set, so that the first
    [j] sets are then stored twice. *)
Theorem save_retry_duplicates st w :
  let buffered := buffered_sets (workout_log st) in
  let j := succeed_count (List.length buffered) (faults w) in
  let o1 := save_entire_workout st w in
  let o2 := save_entire_workout st (final_world o1) in
  (j < List.length buffered)%nat ->
  fault_free (List.length buffered) (faults (final_world o1)) = true ->
  returned o1 = false /\ returned o2 = true /\
  exists first second,
    workout_sets (db (final_world o2)) =
      workout_sets (db w) ++ first ++ second /\
    map entry_of first = firstn j buffered /\
    map entry_of second = buffered.
Proof.
  intros buffered j o1 o2. subst buffered j.
  rewrite <- log_calls_entries, length_map. intros Hj Hff.
  destruct (save_entire_workout_spec st w) as [Hdb1 Hret1].
  cbv zeta in Hdb1, Hret1. fold o1 in Hdb1, Hret1.
  destruct (save_entire_workout_ok st (final_world o1) Hff)
    as [Hret2 [Hrows2 _]]. fold o2 in Hret2, Hrows2.
  split.
  { rewrite Hret1. apply Nat.eqb_neq. lia. }
  split; [exact Hret2|].
  eexists. eexists. split; [|split].
  - rewrite Hrows2, Hdb1. simpl. rewrite <- app_assoc. reflexivity.
  - rewrite entry_of_rows. symmetry. apply firstn_map.
  - apply entry_of_rows.
Qed.

Lemma save_retry_duplicates_witness :
  let st := with_log [(1, [(Z2Qc 80, 5, 7); (Z2Qc 100, 5, 8)])] in
  let w := {| db := demo_db; faults := [false; true] |} in
  let o1 := save_entire_workout st w in
  let o2 := save_entire_workout st (final_world o1) in
  returned o1 = false /\ returned o2 = true /\
  exists first second,
    workout_sets (db (final_world o2)) =
      workout_sets (db w) ++ first ++ second /\
    map entry_of first = firstn 1 (buffered_sets (workout_log st)) /\
    map entry_of second = buffered_sets (workout_log st).
Proof.
  apply (save_retry_duplicates
           (with_log [(1, [(Z2Qc 80, 5, 7); (Z2Qc 100, 5, 8)])])
           {| db := demo_db; faults := [false; true] |});
    [simpl; lia | reflexivity].
Defined.

(** ** Deleting sessions and sets *)


Lemma filter_filter_same {A} (p : A -> bool) l :
  filter p (filter p l) = filter p l.
Proof.
  apply filter_all. intros x Hx. now apply filter_In in Hx.
Qed.



Lemma mem_Z_filter_length ids (rows : list set_row) :
  NoDup (map ws_id rows) -> NoDup ids ->
  (forall i, In i ids -> In i (map ws_id rows)) ->
  List.length (filter (fun r => mem_Z (ws_id r) ids) rows) = List.length ids.
Proof.
  intros Hrows Hids Hin.
  rewrite <- (length_map ws_id).
  apply Permutation_length, NoDup_Permutation.
  - clear -Hrows. induction rows as [|r rows IH]; simpl; [constructor|].
    inversion Hrows as [|? ? Hn Hnd]; subst.
    destruct (mem_Z (ws_id r) ids); simpl; auto.
    constructor; auto. intros Hc. apply Hn.
    apply in_map_iff in Hc. destruct Hc as [r' [E Hr']].
    apply filter_In in Hr'. apply in_map_iff. exists r'. tauto.
  - exact Hids.
  - intros i. rewrite in_map_iff. split.
    + intros [r [<- Hr]]. apply filter_In in Hr. now apply mem_Z_In.
    + intros Hi. destruct (proj1 (in_map_iff _ _ _) (Hin i Hi)) as [r [<- Hr]].
      exists r. split; [reflexivity|]. apply filter_In. split; [exact Hr|].
      now apply mem_Z_In.
Qed.

Lemma with_workout_sets_same d :
  with_workout_sets d (workout_sets d) (ws_sequence d) = d.
Proof. now destruct d. Qed.

Lemma delete_workout_sets_db set_ids w :
  returned (delete_workout_sets set_ids w) = true ->
  db (final_world (delete_workout_sets set_ids w)) =
  with_workout_sets (db w)
    (filter (fun r => negb (mem_Z (ws_id r) set_ids)) (workout_sets (db w)))
    (ws_sequence (db w)).
Proof.
  intros Hret. unfold delete_workout_sets in *.
  destruct set_ids as [|i ids].
  - simpl. rewrite filter_all by reflexivity.
    symmetry. apply with_workout_sets_same.
  - match goal with |- context [transact ?f w] =>
      destruct (transact_spec f w) as [_ [Hdone _]] end.
    now rewrite (Hdone Hret).
Qed.

(** X9: [delete_workout_sets] with ids that no row carries changes nothing, so
    deleting the same ids twice is the same as once; when the ids are
    distinct ids of stored rows (and row ids are distinct), exactly as many
    rows go as ids were given, the number the report announces.  "Nothing"
    is the whole database: no table and no sequence changes, and in every
    case only [workout_sets] can change. *)
Theorem delete_workout_sets_count set_ids w :
  let o := delete_workout_sets set_ids w in
  returned o = true ->
  ((forall r, In r (workout_sets (db w)) -> ~ In (ws_id r) set_ids) ->
   workout_sets (db (final_world o)) = workout_sets (db w)) /\
  (forall w', db w' = db (final_world o) ->
     returned (delete_workout_sets set_ids w') = true ->
     workout_sets (db (final_world (delete_workout_sets set_ids w'))) =
     workout_sets (db w')) /\
  (NoDup (map ws_id (workout_sets (db w))) -> NoDup set_ids ->
   (forall i, In i set_ids -> In i (map ws_id (workout_sets (db w)))) ->
   (List.length (workout_sets (db (final_world o))) + List.length set_ids
    = List.length (workout_sets (db w)))%nat) /\
  ((forall r, In r (workout_sets (db w)) -> ~ In (ws_id r) set_ids) ->
   db (final_world o) = db w) /\
  (forall w', db w' = db (final_world o) ->
     returned (delete_workout_sets set_ids w') = true ->
     db (final_world (delete_workout_sets set_ids w')) = db w') /\
  db (final_world o) =
    with_workout_sets (db w) (workout_sets (db (final_world o)))
      (ws_sequence (db w)).
Proof.
  intros o Hret.
  assert (Hrows : forall w0,
            returned (delete_workout_sets set_ids w0) = true ->
            workout_sets (db (final_world (delete_workout_sets set_ids w0))) =
            filter (fun r => negb (mem_Z (ws_id r) set_ids))
              (workout_sets (db w0))).
  { intros w0 H0. now rewrite (delete_workout_sets_db set_ids w0 H0). }
  assert (Habsent : (forall r, In r (workout_sets (db w)) ->
                               ~ In (ws_id r) set_ids) ->
                    filter (fun r => negb (mem_Z (ws_id r) set_ids))
                      (workout_sets (db w)) = workout_sets (db w)).
  { intros Habs. apply filter_all.
    intros r Hr. apply negb_true_iff.
    destruct (mem_Z (ws_id r) set_ids) eqn:E; [|reflexivity].
    apply mem_Z_In in E. exfalso. exact (Habs r Hr E). }
  fold o in Hrows.
  split; [|split; [|split; [|split; [|split]]]].
  - intros Habs. unfold o. rewrite (Hrows w Hret). now apply Habsent.
  - intros w' Hw' Hret'. rewrite (Hrows w' Hret'), Hw'.
    unfold o. rewrite (Hrows w Hret). apply filter_filter_same.
  - intros Hnd Hids Hin. unfold o. rewrite (Hrows w Hret).
    rewrite <- (filter_length (fun r => mem_Z (ws_id r) set_ids)
                  (workout_sets (db w))).
    rewrite (mem_Z_filter_length set_ids _ Hnd Hids Hin). lia.
  - intros Habs. unfold o. rewrite (delete_workout_sets_db set_ids w Hret).
    rewrite (Habsent Habs). apply with_workout_sets_same.
  - intros w' Hw' Hret'.
    rewrite (delete_workout_sets_db set_ids w' Hret'), Hw'.
    unfold o. rewrite (delete_workout_sets_db set_ids w Hret). simpl.
    rewrite filter_filter_same. reflexivity.
  - unfold o. rewrite (delete_workout_sets_db set_ids w Hret). reflexivity.
Qed.

Lemma delete_workout_sets_count_witness :
  let w := {| db := saved [(1, [(Z2Qc 80, 5, 7); (Z2Qc 90, 5, 8);
                                (Z2Qc 100, 5, 9)])];
              faults := [] |} in
  let o := delete_workout_sets [3; 1] w in
  (List.length (workout_sets (db (final_world o))) + 2 = 3)%nat.
Proof.
  intros w o.
  apply (proj1 (proj2 (proj2 (delete_workout_sets_count [3; 1] w eq_refl)))).
  - simpl. repeat constructor; simpl; intuition discriminate.
  - repeat constructor; simpl; intuition discriminate.
  - simpl. intuition.
Defined.

(** ** Invariants of the stored sets *)

Lemma rows_of_calls_id_bounds uid sid sq cs :
  Forall (fun r => sq < ws_id r <= sq + Z.of_nat (List.length cs))
    (rows_of_calls uid sid sq cs).
Proof.
  revert sq. induction cs as [|[[ex n] [[wt r] rpe]] cs IH]; intros sq.
  - constructor.
  - cbn [rows_of_calls List.length]. constructor.
    + simpl. lia.
    + eapply Forall_impl; [|apply IH]. simpl. intros a Ha. lia.
Qed.

Lemma rows_of_calls_ids_NoDup uid sid sq cs :
  NoDup (map ws_id (rows_of_calls uid sid sq cs)).
Proof.
  revert sq. induction cs as [|[[ex n] [[wt r] rpe]] cs IH]; intros sq.
  - constructor.
  - cbn [rows_of_calls map]. constructor; [|apply IH].
    simpl. intros Hin. apply in_map_iff in Hin. destruct Hin as [r' [E Hr']].
    pose proof (rows_of_calls_id_bounds uid sid (sq + 1) cs) as Hb.
    rewrite Forall_forall in Hb. specialize (Hb r' Hr'). lia.
Qed.

Lemma set_ids_wf_filter (p : set_row -> bool) d :
  set_ids_wf d ->
  set_ids_wf (with_workout_sets d (filter p (workout_sets d)) (ws_sequence d)).
Proof.
  intros [Hnd Hle]. split; simpl.
  - clear Hle. induction (workout_sets d) as [|r rows IH]; simpl; [constructor|].
    inversion Hnd as [|? ? Hn Hnd']; subst.
    destruct (p r); simpl; auto. constructor; auto.
    intros Hc. apply Hn. apply in_map_iff in Hc. destruct Hc as [r' [E Hr']].
    apply filter_In in Hr'. apply in_map_iff. exists r'. tauto.
  - rewrite Forall_forall in *. intros r Hr. apply filter_In in Hr.
    apply Hle. tauto.
Qed.

Lemma set_ids_wf_append uid sid cs d :
  set_ids_wf d ->
  set_ids_wf
    (with_workout_sets d
       (workout_sets d ++ rows_of_calls uid sid (ws_sequence d) cs)
       (ws_sequence d + Z.of_nat (List.length cs))).
Proof.
  intros [Hnd Hle].
  pose proof (rows_of_calls_id_bounds uid sid (ws_sequence d) cs) as Hb.
  rewrite Forall_forall in Hle, Hb. split; simpl.
  - rewrite map_app. apply NoDup_app; [exact Hnd | apply rows_of_calls_ids_NoDup|].
    intros i Hi Hi'. apply in_map_iff in Hi. destruct Hi as [r [<- Hr]].
    apply in_map_iff in Hi'. destruct Hi' as [r' [E Hr']].
    specialize (Hle r Hr). specialize (Hb r' Hr'). lia.
  - apply Forall_forall. intros r Hr. apply in_app_iff in Hr.
    destruct Hr as [Hr|Hr]; [specialize (Hle r Hr) | specialize (Hb r Hr)]; lia.
Qed.

(** X10: The ids of the stored sets stay pairwise distinct, and bounded by the
    table's sequence, under a save (however far it gets before a storage
    failure), under [delete_session] and under [delete_workout_sets]. *)
Theorem set_ids_stay_unique st sid set_ids w :
  set_ids_wf (db w) ->
  set_ids_wf (db (final_world (save_entire_workout st w))) /\
  set_ids_wf (db (final_world (delete_session sid w))) /\
  set_ids_wf (db (final_world (delete_workout_sets set_ids w))).
Proof.
  intros Hwf. split; [|split].
  - destruct (save_entire_workout_spec st w) as [Hdb _]. cbv zeta in Hdb.
    rewrite Hdb.
    set (j := succeed_count _ _).
    assert (Hlen : List.length (firstn j (log_calls (workout_log st))) = j).
    { apply firstn_length_le, succeed_count_le. }
    rewrite <- Hlen at 2. now apply set_ids_wf_append.
  - unfold delete_session.
    match goal with |- context [transact ?f w] =>
      destruct (transact_spec f w) as [_ [Hdone Hfail]] end.
    destruct (returned (transact _ w)) eqn:E.
    + rewrite (Hdone eq_refl).
      apply (set_ids_wf_filter (fun r => negb (ws_session_id r =? sid))) in Hwf.
      destruct Hwf as [H1 H2]. split; simpl; assumption.
    + now rewrite (Hfail eq_refl).
  - unfold delete_workout_sets. destruct set_ids as [|i ids]; [exact Hwf|].
    match goal with |- context [transact ?f w] =>
      destruct (transact_spec f w) as [_ [Hdone Hfail]] end.
    destruct (returned (transact _ w)) eqn:E.
    + rewrite (Hdone eq_refl). now apply set_ids_wf_filter.
    + now rewrite (Hfail eq_refl).
Qed.

Lemma set_ids_stay_unique_witness :
  let st := with_log [(1, [(Z2Qc 80, 5, 7); (Z2Qc 100, 5, 8)])] in
  let w := {| db := demo_db; faults := [false; true] |} in
  set_ids_wf (db (final_world (save_entire_workout st w))) /\
  set_ids_wf (db (final_world (delete_session 1 w))) /\
  set_ids_wf (db (final_world (delete_workout_sets [1] w))).
Proof.
  apply (set_ids_stay_unique
           (with_log [(1, [(Z2Qc 80, 5, 7); (Z2Qc 100, 5, 8)])]) 1 [1]
           {| db := demo_db; faults := [false; true] |}).
  split; constructor.
Defined.

(** X11: Every stored set keeps referring to a stored session under
    [delete_session], under [delete_workout_sets], and under a save into a
    session that exists (however far the save gets). *)
Theorem sets_keep_their_session st sid set_ids w :
  sets_have_session (db w) ->
  sets_have_session (db (final_world (delete_session sid w))) /\
  sets_have_session (db (final_world (delete_workout_sets set_ids w))) /\
  (In (current_session_id st) (map s_id (sessions (db w))) ->
   sets_have_session (db (final_world (save_entire_workout st w)))).
Proof.
  unfold sets_have_session. intros Hinv. rewrite Forall_forall in Hinv.
  split; [|split].
  - unfold delete_session.
    match goal with |- context [transact ?f w] =>
      destruct (transact_spec f w) as [_ [Hdone Hfail]] end.
    destruct (returned (transact _ w)) eqn:E.
    + rewrite (Hdone eq_refl). simpl. apply Forall_forall. intros r Hr.
      apply filter_In in Hr. destruct Hr as [Hr Hne].
      specialize (Hinv r Hr). apply in_map_iff in Hinv.
      destruct Hinv as [s [Hs Hin]]. apply in_map_iff. exists s.
      split; [exact Hs|]. apply filter_In. split; [exact Hin|].
      now rewrite Hs.
    + rewrite (Hfail eq_refl). now apply Forall_forall.
  - unfold delete_workout_sets.
    destruct set_ids as [|i ids]; [now apply Forall_forall|].
    match goal with |- context [transact ?f w] =>
      destruct (transact_spec f w) as [_ [Hdone Hfail]] end.
    destruct (returned (transact _ w)) eqn:E.
    + rewrite (Hdone eq_refl). simpl. apply Forall_forall. intros r Hr.
      apply filter_In in Hr. apply Hinv. tauto.
    + rewrite (Hfail eq_refl). now apply Forall_forall.
  - intros Hsid. destruct (save_entire_workout_spec st w) as [Hdb _].
    cbv zeta in Hdb. rewrite Hdb. simpl. apply Forall_forall. intros r Hr.
    apply in_app_iff in Hr. destruct Hr as [Hr|Hr]; [now apply Hinv|].
    pose proof (rows_of_calls_owner (user_id st) (current_session_id st)
                  (ws_sequence (db w))
                  (firstn (succeed_count
                             (List.length (log_calls (workout_log st)))
                             (faults w))
                     (log_calls (workout_log st)))) as Hown.
    rewrite Forall_forall in Hown. destruct (Hown r Hr) as [_ ->].
    exact Hsid.
Qed.

Lemma sets_keep_their_session_witness :
  let st := with_log [(1, [(Z2Qc 80, 5, 7); (Z2Qc 100, 5, 8)])] in
  let w := {| db := saved [(1, [(Z2Qc 70, 5, 7)])]; faults := [] |} in
  sets_have_session (db (final_world (delete_session 1 w))) /\
  sets_have_session (db (final_world (delete_workout_sets [1] w))) /\
  (In (current_session_id st) (map s_id (sessions (db w))) ->
   sets_have_session (db (final_world (save_entire_workout st w)))).
Proof.
  apply (sets_keep_their_session
           (with_log [(1, [(Z2Qc 80, 5, 7); (Z2Qc 100, 5, 8)])]) 1 [1]
           {| db := saved [(1, [(Z2Qc 70, 5, 7)])]; faults := [] |}).
  repeat constructor.
Defined.

(** ** Connections of the other tables *)

Lemma connection_spec {A} (body : app_db -> A * option app_db) w :
  (fault_free 1 (io_faults w) = true -> finished (connection body w) = true) /\
  (finished (connection body w) = true ->
     result (connection body w) = Some (fst (body (file w))) /\
     final_file (connection body w) =
       match snd (body (file w)) with Some f => f | None => file w end) /\
  (finished (connection body w) = false ->
     final_file (connection body w) = file w).
Proof.
  unfold connection, fault_free. destruct w as [f [|[] fs]]; simpl;
    destruct (body f) as [a c]; simpl; repeat split; auto; discriminate.
Qed.

Lemma fold_max_ge ids x : In x ids -> x <= fold_right Z.max 0 ids.
Proof.
  induction ids as [|i ids IH]; simpl; [tauto|].
  intros [->|H]; [lia | specialize (IH H); lia].
Qed.

Lemma next_rowid_fresh sq ids :
  sq < next_rowid sq ids /\ forall x, In x ids -> x < next_rowid sq ids.
Proof.
  unfold next_rowid. split; [lia|].
  intros x Hx. apply fold_max_ge in Hx. lia.
Qed.

Lemma find_app_last {A} (p : A -> bool) l x :
  (forall y, In y l -> p y = false) -> p x = true ->
  find p (l ++ [x]) = Some x.
Proof.
  intros Hl Hx. induction l as [|y l IH]; simpl.
  - now rewrite Hx.
  - rewrite (Hl y) by now left. apply IH. intros z Hz. apply Hl. now right.
Qed.

Lemma find_app_other {A} (p : A -> bool) l x :
  p x = false -> find p (l ++ [x]) = find p l.
Proof.
  intros Hx. induction l as [|y l IH]; simpl.
  - now rewrite Hx.
  - destruct (p y); auto.
Qed.

(** ** Sessions *)

(** X12: [create_session] returns an id that no session row carried and that is
    above the table's sequence; looking that id up afterwards gives the row
    just written, other ids are looked up as before, and the new session is
    among the sessions listed for its user.  The stored sets are untouched;
    if each of them referred to a stored session, none refers to the new
    one, and each still refers to a stored session. *)
Theorem create_session_round_trip user_id name session_date notes w :
  let o := create_session user_id name session_date notes w in
  let before := tables (file w) in
  let after := tables (final_file o) in
  (fault_free 1 (io_faults w) = true -> finished o = true) /\
  (finished o = true ->
   exists session_id,
     let row := {| s_id := session_id; s_user_id := user_id; s_name := name;
                   s_date := session_date; s_notes := notes |} in
     result o = Some session_id /\
     ~ In session_id (map s_id (sessions before)) /\
     sessions_sequence (file w) < session_id /\
     get_session_by_id after session_id = Some row /\
     (forall other, other <> session_id ->
        get_session_by_id after other = get_session_by_id before other) /\
     In row (get_user_sessions after user_id) /\
     workout_sets after = workout_sets before /\
     (sets_have_session before ->
      filter (fun r => ws_session_id r =? session_id) (workout_sets after) = []
      /\ sets_have_session after)).
Proof.
  intros o before after. unfold o, create_session in *.
  match goal with |- context [connection ?b w] =>
    destruct (connection_spec b w) as [Hok [Hdone _]] end.
  split; [exact Hok|]. intros Hfin.
  destruct (Hdone Hfin) as [Hres Hfile]. clear Hdone Hok.
  cbn [fst snd] in Hres, Hfile.
  set (sid := next_rowid (sessions_sequence (file w))
                (map s_id (sessions (tables (file w))))) in *.
  destruct (next_rowid_fresh (sessions_sequence (file w))
              (map s_id (sessions (tables (file w))))) as [Hseq Hfresh].
  fold sid in Hseq, Hfresh.
  assert (Hnot : ~ In sid (map s_id (sessions before))).
  { intros Hin. specialize (Hfresh sid Hin). lia. }
  exists sid. cbv zeta. unfold after. rewrite Hfile. cbn [tables].
  split; [exact Hres|]. split; [exact Hnot|]. split; [exact Hseq|].
  split; [|split; [|split; [|split]]].
  - unfold get_session_by_id. simpl. apply find_app_last.
    + intros s Hs. apply Z.eqb_neq. intros E. apply Hnot.
      apply in_map_iff. exists s. auto.
    + simpl. apply Z.eqb_refl.
  - intros other Hne. unfold get_session_by_id. simpl.
    apply find_app_other. simpl. apply Z.eqb_neq. congruence.
  - unfold get_user_sessions. apply order_by_In, filter_In. simpl.
    split; [apply in_app_iff; right; now left | apply Z.eqb_refl].
  - reflexivity.
  - intros Hinv. unfold sets_have_session in *. simpl.
    rewrite Forall_forall in Hinv. split.
    + apply filter_none. intros r Hr. apply Z.eqb_neq. intros E.
      apply Hnot. rewrite <- E. now apply Hinv.
    + apply Forall_forall. intros r Hr. rewrite map_app, in_app_iff.
      left. now apply Hinv.
Qed.

Lemma create_session_round_trip_witness :
  let w := {| file := {| tables := demo_db; users_sequence := 2;
                         categories_sequence := 2; exercises_sequence := 3;
                         sessions_sequence := 4 |};
              io_faults := [] |} in
  finished (create_session 1 "Pull Day" "2024-02-01" "" w) = true /\
  result (create_session 1 "Pull Day" "2024-02-01" "" w) = Some 5.
Proof.
  intros w. split.
  - apply (proj1 (create_session_round_trip 1 "Pull Day" "2024-02-01" "" w)).
    reflexivity.
  - reflexivity.
Defined.

(** ** Accounts *)

Lemma find_none_existsb {A} (p : A -> bool) l :
  find p l = None <-> existsb p l = false.
Proof.
  induction l as [|x l IH]; simpl; [tauto|].
  destruct (p x); simpl; [split; discriminate | exact IH].
Qed.

Lemma find_none_all {A} (p : A -> bool) l :
  find p l = None -> forall y, In y l -> p y = false.
Proof. intros H y Hy. exact (find_none p l H y Hy). Qed.

Lemma get_user_id_none d username :
  get_user_id d username = (None, None) <->
  find (fun u => String.eqb (u_username u) username) (users d) = None.
Proof.
  unfold get_user_id. destruct (find _ (users d)); split; try discriminate;
    reflexivity.
Qed.

(** X13: Sign-up and login.  When no user has the name ([get_user_id] finds
    nothing), [create_user] returns [(True, id)], after which logging in
    with the same name and password yields that id and admin flag (passlib
    verifying a password against its own hash), [get_user_id] finds it, its
    profile is empty, and logins under any other name behave as before.
    When the name is taken it returns [(False, None)] and the file is
    unchanged. *)
Theorem create_user_then_login
  (hash_password : string -> string)
  (verify_password : string -> string -> option bool)
  username password is_admin w :
  verify_password password (hash_password password) = Some true ->
  let o := create_user hash_password username password is_admin w in
  let before := tables (file w) in
  let after := tables (final_file o) in
  (fault_free 1 (io_faults w) = true -> finished o = true) /\
  (finished o = true ->
   (get_user_id before username = (None, None) ->
    exists uid,
      result o = Some (true, Some uid) /\
      ~ In uid (map u_id (users before)) /\
      authenticate_user verify_password after username password =
        Some (Some uid, Some is_admin) /\
      get_user_id after username = (Some uid, Some is_admin) /\
      get_user_profile after uid =
        {| p_age := None; p_weight_kg := None; p_height_cm := None;
           p_gender := None |} /\
      (forall other pw, other <> username ->
         authenticate_user verify_password after other pw =
         authenticate_user verify_password before other pw)) /\
   (get_user_id before username <> (None, None) ->
    result o = Some (false, None) /\ final_file o = file w)).
Proof.
  intros Hverify o before after. unfold o, create_user in *.
  match goal with |- context [connection ?b w] =>
    destruct (connection_spec b w) as [Hok [Hdone _]] end.
  split; [exact Hok|]. intros Hfin.
  destruct (Hdone Hfin) as [Hres Hfile]. clear Hdone Hok.
  unfold after. rewrite Hfile, Hres. clear Hres Hfile.
  unfold insert_user. fold before. split.
  - intros Hfree. apply get_user_id_none in Hfree.
    pose proof (find_none_all _ _ Hfree) as Hall.
    apply find_none_existsb in Hfree. rewrite Hfree. cbn [fst snd tables].
    set (uid := next_rowid (users_sequence (file w)) (map u_id (users before))).
    destruct (next_rowid_fresh (users_sequence (file w))
                (map u_id (users before))) as [_ Hfresh]. fold uid in Hfresh.
    assert (Hnot : ~ In uid (map u_id (users before))).
    { intros Hin. specialize (Hfresh uid Hin). lia. }
    exists uid. split; [reflexivity|]. split; [exact Hnot|].
    split; [|split; [|split]].
    + unfold authenticate_user. simpl.
      rewrite find_app_last; [| exact Hall | simpl; apply String.eqb_refl].
      simpl. now rewrite Hverify.
    + unfold get_user_id. simpl.
      rewrite find_app_last; [reflexivity | exact Hall |].
      simpl. apply String.eqb_refl.
    + unfold get_user_profile. simpl.
      rewrite find_app_last; [reflexivity | | simpl; apply Z.eqb_refl].
      intros u Hu. apply Z.eqb_neq. intros E. apply Hnot.
      apply in_map_iff. exists u. auto.
    + intros other pw Hne. unfold authenticate_user. simpl.
      rewrite find_app_other; [reflexivity|].
      simpl. apply String.eqb_neq. congruence.
  - intros Htaken.
    destruct (existsb _ (users before)) eqn:E.
    + split; reflexivity.
    + exfalso. apply Htaken. apply get_user_id_none.
      now apply find_none_existsb.
Qed.

Lemma create_user_then_login_witness :
  let hash := fun p : string => ("$pbkdf2$" ++ p)%string in
  let verify := fun (p h : string) => Some (String.eqb ("$pbkdf2$" ++ p) h) in
  let w := {| file := {| tables := demo_db; users_sequence := 2;
                         categories_sequence := 2; exercises_sequence := 3;
                         sessions_sequence := 1 |};
              io_faults := [] |} in
  finished (create_user hash "zoe" "secret" 0 w) = true /\
  result (create_user hash "zoe" "secret" 0 w) = Some (true, Some 3) /\
  result (create_user hash "ann" "secret" 0 w) = Some (false, None) /\
  final_file (create_user hash "ann" "secret" 0 w) = file w.
Proof.
  intros hash verify w.
  split; [|split; [reflexivity|]].
  - apply (proj1 (create_user_then_login hash verify "zoe" "secret" 0 w
                    eq_refl)).
    reflexivity.
  - apply (proj2 (proj2 (create_user_then_login hash verify "ann" "secret" 0 w
                           eq_refl) eq_refl)).
    discriminate.
Defined.

(** ** Profiles *)

Lemma find_map_key {A} (p : A -> bool) (f : A -> A) l :
  (forall x, p (f x) = p x) ->
  find p (map f l) = option_map f (find p l).
Proof.
  intros H. induction l as [|x l IH]; simpl; [reflexivity|].
  rewrite H. destruct (p x); auto.
Qed.

Lemma with_users_same d : with_users d (users d) = d.
Proof. now destruct d. Qed.

(** X14: [update_user_profile] followed by [get_user_profile] gives back the
    four values for an existing user; other users' profiles, every login
    and the weight used for bodyweight sets of other users are as before,
    and for an id without a user row nothing changes.  The profile of an
    unknown id is all [None]. *)
Theorem update_user_profile_round_trip uid age weight_kg height_cm gender w :
  let o := update_user_profile uid age weight_kg height_cm gender w in
  let before := db w in
  let after := db (final_world o) in
  (fault_free 1 (faults w) = true -> returned o = true) /\
  (returned o = true ->
   (In uid (map u_id (users before)) ->
    get_user_profile after uid =
      {| p_age := age; p_weight_kg := weight_kg; p_height_cm := height_cm;
         p_gender := gender |} /\
    profile_weight_kg after uid = weight_kg) /\
   (forall other, other <> uid ->
      get_user_profile after other = get_user_profile before other /\
      profile_weight_kg after other = profile_weight_kg before other) /\
   (forall verify_password username password,
      authenticate_user verify_password after username password =
      authenticate_user verify_password before username password) /\
   (~ In uid (map u_id (users before)) -> after = before)) /\
  (~ In uid (map u_id (users before)) ->
   get_user_profile before uid =
     {| p_age := None; p_weight_kg := None; p_height_cm := None;
        p_gender := None |}).
Proof.
  intros o before after. unfold o, update_user_profile in *.
  match goal with |- context [transact ?f w] =>
    destruct (transact_spec f w) as [Hok [Hdone _]]; set (upd := f) in * end.
  split; [exact Hok|]. split.
  - intros Hret. unfold after. rewrite (Hdone Hret). fold before.
    set (f := fun u => if u_id u =? uid then _ else u) in *.
    assert (Hid : forall k u, (u_id (f u) =? k) = (u_id u =? k)).
    { intros k u. unfold f. destruct (u_id u =? uid); reflexivity. }
    assert (Hname : forall n u,
              String.eqb (u_username (f u)) n = String.eqb (u_username u) n).
    { intros n u. unfold f. destruct (u_id u =? uid); reflexivity. }
    split; [|split; [|split]].
    + intros Hin.
      assert (Hfind : exists u,
                find (fun u => u_id u =? uid) (users before) = Some u /\
                u_id u = uid).
      { destruct (find (fun u => u_id u =? uid) (users before)) as [u|] eqn:E.
        - exists u. split; [reflexivity|].
          apply find_some in E. now apply Z.eqb_eq.
        - exfalso. apply in_map_iff in Hin. destruct Hin as [u [Hu Hin]].
          pose proof (find_none _ _ E u Hin) as Hf. simpl in Hf.
          apply Z.eqb_neq in Hf. contradiction. }
      destruct Hfind as [u [Hfind Hu]].
      unfold get_user_profile, profile_weight_kg, upd. simpl.
      rewrite (find_map_key _ f) by (intros; apply Hid).
      rewrite Hfind. simpl. unfold f.
      rewrite (proj2 (Z.eqb_eq _ _) Hu). split; reflexivity.
    + intros other Hne.
      unfold get_user_profile, profile_weight_kg, upd. simpl.
      rewrite (find_map_key _ f) by (intros; apply Hid).
      destruct (find (fun u => u_id u =? other) (users before)) as [u|] eqn:E;
        simpl; [|split; reflexivity].
      apply find_some in E. destruct E as [_ E]. apply Z.eqb_eq in E.
      unfold f. destruct (u_id u =? uid) eqn:E'; [|split; reflexivity].
      apply Z.eqb_eq in E'. congruence.
    + intros verify username password. unfold authenticate_user, upd. simpl.
      rewrite (find_map_key _ f) by (intros; apply Hname).
      destruct (find _ (users before)) as [u|]; simpl; [|reflexivity].
      unfold f. destruct (u_id u =? uid); reflexivity.
    + intros Hnot. unfold upd.
      replace (map f (users before)) with (users before);
        [apply with_users_same|].
      rewrite <- (map_id (users before)) at 1. apply map_ext_in.
      intros u Hu. unfold f.
      destruct (u_id u =? uid) eqn:E; [|reflexivity].
      apply Z.eqb_eq in E. exfalso. apply Hnot. apply in_map_iff.
      exists u. auto.
  - intros Hnot. unfold get_user_profile.
    destruct (find (fun u => u_id u =? uid) (users before)) as [u|] eqn:E;
      [|reflexivity].
    apply find_some in E. destruct E as [Hin E]. apply Z.eqb_eq in E.
    exfalso. apply Hnot. apply in_map_iff. exists u. auto.
Qed.

Lemma update_user_profile_round_trip_witness :
  let w := {| db := demo_db; faults := [] |} in
  let o := update_user_profile 2 (Some 30) (Some (Z2Qc 82)) (Some (Z2Qc 180))
             (Some "Male"%string) w in
  returned o = true /\
  get_user_profile (db (final_world o)) 2 =
    {| p_age := Some 30; p_weight_kg := Some (Z2Qc 82);
       p_height_cm := Some (Z2Qc 180); p_gender := Some "Male"%string |} /\
  profile_weight_kg (db (final_world o)) 2 = Some (Z2Qc 82).
Proof.
  intros w o.
  assert (Hret : returned o = true).
  { apply (proj1 (update_user_profile_round_trip 2 (Some 30) (Some (Z2Qc 82))
                    (Some (Z2Qc 180)) (Some "Male"%string) w)).
    reflexivity. }
  split; [exact Hret|].
  apply (proj1 (proj1 (proj2 (update_user_profile_round_trip 2 (Some 30)
           (Some (Z2Qc 82)) (Some (Z2Qc 180)) (Some "Male"%string) w)) Hret)).
  simpl. auto.
Defined.

(** ** Categories *)

Lemma existsb_name_In (name : string) (rows : list category_row) :
  existsb (fun c => String.eqb (c_name c) name) rows = true <->
  In name (map c_name rows).
Proof.
  rewrite existsb_exists, in_map_iff. split.
  - intros [c [Hc E]]. apply String.eqb_eq in E. eauto.
  - intros [c [E Hc]]. exists c. split; [exact Hc | now apply String.eqb_eq].
Qed.

Lemma add_category_final name w :
  final_file (add_category name w) =
    if finished (add_category name w) then
      if existsb (fun c => String.eqb (c_name c) name)
           (categories (tables (file w)))
      then file w
      else
        let new_id := next_rowid (categories_sequence (file w))
                        (map c_id (categories (tables (file w)))) in
        {| tables :=
             with_categories (tables (file w))
               (categories (tables (file w)) ++
                  [{| c_id := new_id; c_name := name |}]);
           users_sequence := users_sequence (file w);
           categories_sequence := new_id;
           exercises_sequence := exercises_sequence (file w);
           sessions_sequence := sessions_sequence (file w) |}
    else file w.
Proof.
  unfold add_category.
  match goal with |- context [connection ?b w] =>
    destruct (connection_spec b w) as [_ [Hdone Hfail]] end.
  destruct (finished (connection _ w)) eqn:Hfin; [|now apply Hfail].
  destruct (Hdone eq_refl) as [_ Hfile]. rewrite Hfile.
  unfold insert_category. now destruct (existsb _ _).
Qed.

(** X15: [add_category] is an insert that does nothing when the name is there:
    afterwards the name is a category, a name that was there leaves the file
    unchanged (so a second call changes nothing), a new name is appended
    with an id no category carried, which becomes the table's sequence,
    while the other categories, every other table and the other sequences
    are kept, and category names stay pairwise distinct. *)
Theorem add_category_upsert name w :
  let o := add_category name w in
  let before := tables (file w) in
  let after := tables (final_file o) in
  (fault_free 1 (io_faults w) = true -> finished o = true) /\
  (In name (map c_name (categories before)) -> final_file o = file w) /\
  (finished o = true ->
   In name (map c_name (categories after)) /\
   (~ In name (map c_name (categories before)) ->
    exists new_id,
      ~ In new_id (map c_id (categories before)) /\
      final_file o =
        {| tables :=
             with_categories before
               (categories before ++ [{| c_id := new_id; c_name := name |}]);
           users_sequence := users_sequence (file w);
           categories_sequence := new_id;
           exercises_sequence := exercises_sequence (file w);
           sessions_sequence := sessions_sequence (file w) |} /\
      categories after =
        categories before ++ [{| c_id := new_id; c_name := name |}] /\
      users after = users before /\
      exercises after = exercises before /\
      exercise_categories after = exercise_categories before /\
      sessions after = sessions before /\
      workout_sets after = workout_sets before /\
      ws_sequence after = ws_sequence before) /\
   (forall w', file w' = final_file o ->
      final_file (add_category name w') = file w')) /\
  (NoDup (map c_name (categories before)) ->
   NoDup (map c_name (categories after))).
Proof.
  intros o before after. subst o after.
  assert (Hpresent : forall w0,
            In name (map c_name (categories (tables (file w0)))) ->
            final_file (add_category name w0) = file w0).
  { intros w0 Hin. rewrite add_category_final.
    apply existsb_name_In in Hin. rewrite Hin.
    now destruct (finished _). }
  assert (Hfresh : ~ In (next_rowid (categories_sequence (file w))
                           (map c_id (categories before)))
                     (map c_id (categories before))).
  { intros Hin.
    destruct (next_rowid_fresh (categories_sequence (file w))
                (map c_id (categories before))) as [_ H].
    specialize (H _ Hin). lia. }
  split.
  { unfold add_category.
    match goal with |- context [connection ?b w] =>
      destruct (connection_spec b w) as [H _]; exact H end. }
  split; [apply Hpresent|]. split.
  - intros Hfin. rewrite (add_category_final name w).
    rewrite Hfin. fold before.
    destruct (existsb _ (categories before)) eqn:Ex.
    + assert (Hin : In name (map c_name (categories before)))
        by now apply existsb_name_In.
      split; [exact Hin|]. split; [intros Hn; contradiction|].
      intros w' Hw'. apply Hpresent. rewrite Hw'. exact Hin.
    + cbv zeta. cbn [tables]. split; [|split].
      * simpl. rewrite map_app. apply in_app_iff. right. now left.
      * intros _. eexists. split; [exact Hfresh|]. repeat split.
      * intros w' Hw'. apply Hpresent. rewrite Hw'.
        simpl. rewrite map_app.
        apply in_app_iff. right. now left.
  - intros Hnd. rewrite (add_category_final name w).
    fold before. destruct (finished _); [|exact Hnd].
    destruct (existsb _ (categories before)) eqn:Ex; [exact Hnd|].
    simpl. rewrite map_app. simpl.
    apply NoDup_app; [exact Hnd | repeat constructor; intros [] |].
    intros a Ha [<-|[]].
    apply existsb_name_In in Ha. congruence.
Qed.

Lemma add_category_upsert_witness :
  let w := {| file := {| tables := demo_db; users_sequence := 2;
                         categories_sequence := 2; exercises_sequence := 3;
                         sessions_sequence := 1 |};
              io_faults := [] |} in
  final_file (add_category "Legs" w) = file w /\
  finished (add_category "Core" w) = true /\
  NoDup (map c_name (categories (tables (final_file (add_category "Core" w))))).
Proof.
  intros w. split; [|split].
  - apply (proj1 (proj2 (add_category_upsert "Legs" w))). simpl. auto.
  - apply (proj1 (add_category_upsert "Core" w)). reflexivity.
  - apply (proj2 (proj2 (proj2 (add_category_upsert "Core" w)))).
    simpl. repeat constructor; simpl; intuition discriminate.
Defined.

Lemma add_category_present name w :
  In name (map c_name (categories (tables (file w)))) ->
  final_file (add_category name w) = file w.
Proof.
  intros Hin. rewrite add_category_final.
  apply existsb_name_In in Hin. rewrite Hin. now destruct (finished _).
Qed.

Lemma add_category_keeps name n w :
  In n (map c_name (categories (tables (file w)))) ->
  In n (map c_name (categories (tables (final_file (add_category name w))))).
Proof.
  intros Hin. rewrite add_category_final.
  destruct (finished _); [|exact Hin].
  destruct (existsb _ _); [exact Hin|].
  simpl. rewrite map_app. apply in_app_iff. now left.
Qed.

Lemma add_category_adds name w :
  finished (add_category name w) = true ->
  In name (map c_name (categories (tables (final_file (add_category name w))))).
Proof.
  intros Hfin. rewrite add_category_final, Hfin.
  destruct (existsb _ _) eqn:Ex; [now apply existsb_name_In|].
  simpl. rewrite map_app. apply in_app_iff. right. now left.
Qed.

Lemma add_categories_keeps names n w :
  In n (map c_name (categories (tables (file w)))) ->
  In n (map c_name
          (categories (tables (final_file (add_categories names w))))).
Proof.
  revert w. induction names as [|name names IH]; intros w Hin; [exact Hin|].
  simpl. pose proof (add_category_keeps name n w Hin) as Hk.
  destruct (add_category name w) as [[] w'|w']; simpl in *; auto.
Qed.

Lemma add_categories_present names w :
  (forall n, In n names -> In n (map c_name (categories (tables (file w))))) ->
  final_file (add_categories names w) = file w.
Proof.
  revert w. induction names as [|name names IH]; intros w Hall; [reflexivity|].
  simpl. pose proof (add_category_present name w (Hall name (or_introl eq_refl)))
    as Hp.
  destruct (add_category name w) as [[] w'|w']; simpl in *; [|exact Hp].
  rewrite IH; [exact Hp|]. intros n Hn. rewrite Hp. apply Hall. now right.
Qed.

Lemma add_categories_all names w :
  finished (add_categories names w) = true ->
  forall n, In n names ->
    In n (map c_name
            (categories (tables (final_file (add_categories names w))))).
Proof.
  revert w. induction names as [|name names IH]; intros w Hfin n Hn;
    [contradiction|].
  simpl in *. pose proof (add_category_adds name w) as Ha.
  destruct (add_category name w) as [[] w'|w']; simpl in *; [|discriminate].
  destruct Hn as [<-|Hn]; [|now apply IH].
  apply add_categories_keeps. now apply Ha.
Qed.

(** X16: Seeding the default categories at every start of the script is
    harmless: once a run of [add_category] over a list of names has gone
    through, all of them are categories, and running it again over the same
    list leaves the file exactly as it is. *)
Theorem add_categories_idempotent names w :
  finished (add_categories names w) = true ->
  (forall n, In n names ->
     In n (map c_name
             (categories (tables (final_file (add_categories names w)))))) /\
  (forall w', file w' = final_file (add_categories names w) ->
     final_file (add_categories names w') = file w').
Proof.
  intros Hfin. split; [now apply add_categories_all|].
  intros w' Hw'. apply add_categories_present. intros n Hn.
  rewrite Hw'. now apply add_categories_all.
Qed.

Lemma add_categories_idempotent_witness :
  let w := {| file := {| tables := demo_db; users_sequence := 2;
                         categories_sequence := 2; exercises_sequence := 3;
                         sessions_sequence := 1 |};
              io_faults := [] |} in
  let o := add_categories default_cats w in
  map c_name (categories (tables (final_file o))) =
    ["Legs"; "Chest"; "Core"; "Back"; "Shoulders"; "Arms"; "Full Body"]%string
  /\
  final_file (add_categories default_cats
                {| file := final_file o; io_faults := [] |}) = final_file o.
Proof.
  intros w o. split; [reflexivity|].
  apply (proj2 (add_categories_idempotent default_cats w eq_refl)
           {| file := final_file o; io_faults := [] |}).
  reflexivity.
Defined.

(** ** Adding an exercise *)

Lemma add_links_nil f : add_links f [] = f.
Proof.
  destruct f as [d ? ? ? ?]. destruct d. unfold add_links, with_tables,
    with_exercises. simpl. now rewrite app_nil_r.
Qed.

Lemma add_links_app f l1 l2 :
  add_links (add_links f l1) l2 = add_links f (l1 ++ l2).
Proof.
  unfold add_links, with_tables, with_exercises. simpl.
  now rewrite <- app_assoc.
Qed.

Lemma link_present_iff eid c (links : list exercise_category_row) :
  existsb (fun ec => (ec_exercise_id ec =? eid) && (ec_category_id ec =? c))
    links = true <->
  In {| ec_exercise_id := eid; ec_category_id := c |} links.
Proof.
  rewrite existsb_exists. split.
  - intros [[x y] [Hin E]]. simpl in E. apply andb_true_iff in E.
    destruct E as [E1 E2]. apply Z.eqb_eq in E1, E2. now subst.
  - intros Hin. eexists. split; [exact Hin|]. simpl.
    now rewrite !Z.eqb_refl.
Qed.

Lemma insert_exercise_category_spec eid c f :
  insert_exercise_category eid c f =
    if existsb (fun ec => (ec_exercise_id ec =? eid)
                          && (ec_category_id ec =? c))
         (exercise_categories (tables f))
    then None
    else Some (add_links f [{| ec_exercise_id := eid; ec_category_id := c |}]).
Proof. reflexivity. Qed.

Lemma insert_exercise_categories_ok eid cats f :
  NoDup cats ->
  (forall c, In c cats ->
     ~ In {| ec_exercise_id := eid; ec_category_id := c |}
         (exercise_categories (tables f))) ->
  insert_exercise_categories eid cats f =
    Some (add_links f
            (map (fun c => {| ec_exercise_id := eid; ec_category_id := c |})
               cats)).
Proof.
  revert f. induction cats as [|c cats IH]; intros f Hnd Hfree.
  - simpl. now rewrite add_links_nil.
  - inversion Hnd as [|? ? Hn Hnd']; subst.
    cbn [insert_exercise_categories]. rewrite insert_exercise_category_spec.
    destruct (existsb _ _) eqn:Ex.
    + apply link_present_iff in Ex. exfalso.
      exact (Hfree c (or_introl eq_refl) Ex).
    + rewrite IH; [now rewrite add_links_app | exact Hnd'|].
      intros c' Hc' Hin. simpl in Hin. apply in_app_iff in Hin.
      destruct Hin as [Hin|[E|[]]].
      * exact (Hfree c' (or_intror Hc') Hin).
      * injection E as ->. contradiction.
Qed.

Lemma insert_exercise_categories_present eid cats c f :
  In c cats ->
  In {| ec_exercise_id := eid; ec_category_id := c |}
    (exercise_categories (tables f)) ->
  insert_exercise_categories eid cats f = None.
Proof.
  revert f. induction cats as [|c0 cats IH]; intros f Hc Hin; [contradiction|].
  cbn [insert_exercise_categories]. rewrite insert_exercise_category_spec.
  destruct (existsb _ _) eqn:Ex; [reflexivity|].
  destruct Hc as [->|Hc].
  - apply link_present_iff in Hin. congruence.
  - apply IH; [exact Hc|]. simpl. apply in_app_iff. now left.
Qed.

Lemma insert_exercise_categories_dup eid cats f :
  ~ NoDup cats -> insert_exercise_categories eid cats f = None.
Proof.
  revert f. induction cats as [|c cats IH]; intros f Hdup.
  - exfalso. apply Hdup. constructor.
  - cbn [insert_exercise_categories]. rewrite insert_exercise_category_spec.
    destruct (existsb _ _) eqn:Ex; [reflexivity|].
    destruct (in_dec Z.eq_dec c cats) as [Hin|Hnin].
    + apply (insert_exercise_categories_present eid cats c); [exact Hin|].
      simpl. apply in_app_iff. right. now left.
    + apply IH. intros Hnd. apply Hdup. now constructor.
Qed.

Lemma existsb_exercise_name_In (name : string) (rows : list exercise_row) :
  existsb (fun e => String.eqb (e_name e) name) rows = true <->
  In name (map e_name rows).
Proof.
  rewrite existsb_exists, in_map_iff. split.
  - intros [e [He E]]. apply String.eqb_eq in E. eauto.
  - intros [e [E He]]. exists e. split; [exact He | now apply String.eqb_eq].
Qed.

(** X17: [add_exercise] writes the exercise and all its category links, or
    nothing.  A taken name, and likewise a category list with a repeated
    id, gives the message "Exercise with this name already exists." and an
    unchanged file.  Otherwise (every link referring to a stored exercise)
    the exercise is appended under an id no exercise carried, with one link
    per category, and [get_exercises] lists it without filter and under
    each of its categories. *)
Theorem add_exercise_all_or_nothing name description category_ids w :
  let o := add_exercise name description category_ids w in
  let before := tables (file w) in
  let after := tables (final_file o) in
  let refused :=
    Some (Some (st_error "Exercise with this name already exists.")) in
  (fault_free 1 (io_faults w) = true -> finished o = true) /\
  (finished o = false -> final_file o = file w) /\
  (finished o = true ->
   (In name (map e_name (exercises before)) ->
    result o = refused /\ final_file o = file w) /\
   (~ NoDup category_ids -> result o = refused /\ final_file o = file w) /\
   (~ In name (map e_name (exercises before)) -> NoDup category_ids ->
    links_have_exercise before ->
    exists exercise_id,
      let row := {| e_id := exercise_id; e_name := name;
                    e_description := description |} in
      ~ In exercise_id (map e_id (exercises before)) /\
      result o = Some None /\
      exercises after = exercises before ++ [row] /\
      exercise_categories after =
        exercise_categories before ++
          map (fun c => {| ec_exercise_id := exercise_id; ec_category_id := c |})
            category_ids /\
      In row (get_exercises after None EmptyString) /\
      (forall c, In c category_ids ->
         In row (get_exercises after (Some [c]) EmptyString)))).
Proof.
  intros o before after refused. subst o after refused.
  unfold add_exercise.
  match goal with |- context [connection ?b w] =>
    destruct (connection_spec b w) as [Hok [Hdone Hfail]] end.
  split; [exact Hok|]. split; [exact Hfail|]. intros Hfin.
  destruct (Hdone Hfin) as [Hres Hfile]. rewrite Hres, Hfile.
  clear Hok Hdone Hfail Hres Hfile Hfin.
  unfold insert_exercise. fold before.
  destruct (existsb _ (exercises before)) eqn:Ex.
  - cbn [fst snd]. split; [auto|]. split; [auto|].
    intros Hfree. apply existsb_exercise_name_In in Ex. contradiction.
  - set (eid := next_rowid (exercises_sequence (file w))
                  (map e_id (exercises before))).
    set (f1 := {| tables := _; users_sequence := _ |}).
    assert (Hnot : ~ In eid (map e_id (exercises before))).
    { intros Hin.
      destruct (next_rowid_fresh (exercises_sequence (file w))
                  (map e_id (exercises before))) as [_ H].
      specialize (H _ Hin). unfold eid in H. lia. }
    split; [|split].
    + intros Hin. apply existsb_exercise_name_In in Hin. congruence.
    + intros Hdup. rewrite insert_exercise_categories_dup by exact Hdup.
      cbn [fst snd]. auto.
    + intros _ Hnd Hlinks.
      rewrite insert_exercise_categories_ok; [|exact Hnd|].
      * cbn [fst snd]. exists eid. cbv zeta.
        split; [exact Hnot|]. split; [reflexivity|].
        split; [reflexivity|]. split; [reflexivity|].
        assert (Hin : In {| e_id := eid; e_name := name;
                            e_description := description |}
                        (exercises (tables (add_links f1
                           (map (fun c => {| ec_exercise_id := eid;
                                             ec_category_id := c |})
                              category_ids))))).
        { simpl. apply in_app_iff. right. now left. }
        split.
        -- apply get_exercises_In. auto.
        -- intros c Hc. apply get_exercises_In. split; [exact Hin|].
           split; [|exact I]. exists c. split; [now left|].
           simpl. apply in_app_iff. right.
           apply in_map_iff. exists c. auto.
      * intros c Hc Hin. simpl in Hin. apply Hnot.
        apply (Hlinks _ Hin).
Qed.

Lemma add_exercise_all_or_nothing_witness :
  let w := {| file := {| tables := demo_db; users_sequence := 2;
                         categories_sequence := 2; exercises_sequence := 3;
                         sessions_sequence := 1 |};
              io_faults := [] |} in
  finished (add_exercise "Deadlift" "" [1; 2] w) = true /\
  final_file (add_exercise "Squat" "" [1] w) = file w /\
  final_file (add_exercise "Deadlift" "" [1; 1] w) = file w /\
  exists exercise_id,
    result (add_exercise "Deadlift" "" [1; 2] w) = Some None /\
    In {| e_id := exercise_id; e_name := "Deadlift"; e_description := "" |}
      (get_exercises
         (tables (final_file (add_exercise "Deadlift" "" [1; 2] w)))
         (Some [2]) EmptyString).
Proof.
  intros w.
  pose proof (add_exercise_all_or_nothing "Deadlift" "" [1; 2] w) as H12.
  pose proof (add_exercise_all_or_nothing "Squat" "" [1] w) as Hs.
  pose proof (add_exercise_all_or_nothing "Deadlift" "" [1; 1] w) as H11.
  cbv zeta in H12, Hs, H11.
  split; [apply (proj1 H12); reflexivity|].
  split; [apply (proj1 (proj2 (proj2 Hs) eq_refl)); simpl; auto|].
  split.
  { apply (proj1 (proj2 (proj2 (proj2 H11) eq_refl))).
    intros Hnd. inversion Hnd as [|? ? Hn _]. apply Hn. now left. }
  destruct (proj2 (proj2 (proj2 (proj2 H12) eq_refl))) as [eid Heid].
  - simpl. intuition discriminate.
  - repeat constructor; simpl; intuition discriminate.
  - intros ec Hec. simpl in Hec.
    destruct Hec as [<-|[<-|[]]]; simpl; auto.
  - exists eid. split; [apply Heid|]. apply Heid. simpl. auto.
Defined.

(** ** Grouping *)

Lemma distinct_NoDup {A} (eqb : A -> A -> bool) l :
  (forall a, eqb a a = true) -> NoDup (distinct eqb l).
Proof.
  intros Hrefl. induction l as [|x l IH]; simpl; constructor.
  - intros Hin. apply filter_In in Hin. destruct Hin as [_ Hin].
    now rewrite Hrefl in Hin.
  - now apply NoDup_filter.
Qed.











(** ** Totals of the reports *)







(** ** What the set queries return *)

Lemma join_user_sets_In d r :
  In r (join_user_sets d) <->
  In (us_set r) (workout_sets d) /\
  (exists e, In e (exercises d) /\ e_id e = ws_exercise_id (us_set r) /\
             us_exercise_name r = e_name e) /\
  (exists s, In s (sessions d) /\ s_id s = ws_session_id (us_set r) /\
             us_session_name r = s_name s /\ us_session_date r = s_date s).
Proof.
  unfold join_user_sets. rewrite in_flat_map. split.
  - intros [ws [Hws Hr]]. rewrite in_flat_map in Hr.
    destruct Hr as [e [He Hr]].
    destruct (ws_exercise_id ws =? e_id e) eqn:Ee; [|contradiction].
    rewrite in_flat_map in Hr. destruct Hr as [s [Hs Hr]].
    destruct (ws_session_id ws =? s_id s) eqn:Es; [|contradiction].
    destruct Hr as [<-|[]]. simpl. apply Z.eqb_eq in Ee, Es.
    split; [exact Hws|]. split; [exists e | exists s]; auto.
  - intros [Hws [[e [He [Ee Hn]]] [s [Hs [Es [Hsn Hsd]]]]]].
    exists (us_set r). split; [exact Hws|].
    rewrite in_flat_map. exists e. split; [exact He|].
    rewrite <- Ee, Z.eqb_refl. rewrite in_flat_map. exists s.
    split; [exact Hs|]. rewrite <- Es, Z.eqb_refl. left.
    destruct r; simpl in *. now subst.
Qed.

(** X20: [get_user_workout_sets] returns exactly the stored sets of the given
    user (and of the given exercise, unless it is [None] or 0) whose
    exercise and session rows exist, each with the names and date of those
    rows; it never returns a set of another user. *)
Theorem get_user_workout_sets_scope d uid exercise_id r :
  In r (get_user_workout_sets d uid exercise_id) <->
  In (us_set r) (workout_sets d) /\
  ws_user_id (us_set r) = uid /\
  match exercise_id with
  | Some ex => ex = 0 \/ ws_exercise_id (us_set r) = ex
  | None => True
  end /\
  (exists e, In e (exercises d) /\ e_id e = ws_exercise_id (us_set r) /\
             us_exercise_name r = e_name e) /\
  (exists s, In s (sessions d) /\ s_id s = ws_session_id (us_set r) /\
             us_session_name r = s_name s /\ us_session_date r = s_date s).
Proof.
  unfold get_user_workout_sets.
  destruct exercise_id as [ex|]; [destruct (ex =? 0) eqn:E0|];
    rewrite order_by_In, filter_In, join_user_sets_In;
    rewrite ?andb_true_iff, ?Z.eqb_eq.
  - apply Z.eqb_eq in E0. tauto.
  - apply Z.eqb_neq in E0. tauto.
  - tauto.
Qed.

(** ** Sorted results *)

Lemma insert_sorted_Sorted {A} (leb : A -> A -> bool) x l :
  (forall a b, leb a b = true \/ leb b a = true) ->
  Sorted (fun a b => leb a b = true) l ->
  Sorted (fun a b => leb a b = true) (insert_sorted leb x l).
Proof.
  intros Htotal Hs. induction Hs as [|y l Hs IH Hhd]; simpl.
  - repeat constructor.
  - destruct (leb x y) eqn:E.
    + repeat constructor; assumption.
    + constructor; [exact IH|].
      destruct (Htotal x y) as [H|H]; [congruence|].
      destruct l as [|z l]; simpl.
      * now constructor.
      * destruct (leb x z); constructor; [exact H|].
        now inversion Hhd.
Qed.

Lemma order_by_sorted {A} (leb : A -> A -> bool) l :
  (forall a b, leb a b = true \/ leb b a = true) ->
  (forall a b c, leb a b = true -> leb b c = true -> leb a c = true) ->
  StronglySorted (fun a b => leb a b = true) (order_by leb l).
Proof.
  intros Htotal Htrans. apply Sorted_StronglySorted.
  - intros a b c. apply Htrans.
  - unfold order_by. induction l as [|x l IH]; simpl; [constructor|].
    now apply insert_sorted_Sorted.
Qed.

Lemma string_compare_lt_trans a b c :
  String.compare a b = Lt -> String.compare b c = Lt ->
  String.compare a c = Lt.
Proof.
  intros H1 H2.
  apply OrderedTypeEx.String_as_OT.cmp_lt in H1, H2.
  apply OrderedTypeEx.String_as_OT.cmp_lt.
  eapply OrderedTypeEx.String_as_OT.lt_trans; eassumption.
Qed.

Lemma string_compare_gt_lt a b :
  String.compare a b = Gt <-> String.compare b a = Lt.
Proof.
  rewrite (String.compare_antisym b a).
  destruct (String.compare a b); simpl; split; congruence.
Qed.

Lemma string_compare_refl a : String.compare a a = Eq.
Proof. now apply OrderedTypeEx.String_as_OT.cmp_eq. Qed.

Lemma string_leb_trans a b c :
  String.leb a b = true -> String.leb b c = true -> String.leb a c = true.
Proof.
  unfold String.leb. intros H1 H2.
  destruct (String.compare a b) eqn:Eab; [| |discriminate].
  - apply String.compare_eq_iff in Eab. now subst.
  - destruct (String.compare b c) eqn:Ebc; [| |discriminate].
    + apply String.compare_eq_iff in Ebc. subst. now rewrite Eab.
    + now rewrite (string_compare_lt_trans a b c).
Qed.

(** X21: [get_exercises] lists each exercise at most once, in the order of
    their names (byte-wise), whatever the filters. *)
Theorem get_exercises_sorted_distinct d category_ids search_term :
  NoDup (get_exercises d category_ids search_term) /\
  StronglySorted (fun a b => String.leb (e_name a) (e_name b) = true)
    (get_exercises d category_ids search_term).
Proof.
  unfold get_exercises. split.
  - eapply Permutation_NoDup; [apply Permutation_sym, order_by_perm|].
    apply distinct_NoDup. intros [i n ds]. unfold exercise_row_eqb. simpl.
    now rewrite Z.eqb_refl, !String.eqb_refl.
  - apply (order_by_sorted by_name).
    + intros a b. apply String.leb_total.
    + intros a b c. apply string_leb_trans.
Qed.

Lemma by_date_desc_id_desc_total a b :
  by_date_desc_id_desc a b = true \/ by_date_desc_id_desc b a = true.
Proof.
  unfold by_date_desc_id_desc.
  rewrite (String.compare_antisym (s_date b) (s_date a)).
  destruct (String.compare (s_date a) (s_date b)); simpl; auto.
  destruct (Z.leb_spec (s_id b) (s_id a)); [auto|].
  right. apply Z.leb_le. lia.
Qed.

Lemma by_date_desc_id_desc_trans a b c :
  by_date_desc_id_desc a b = true -> by_date_desc_id_desc b c = true ->
  by_date_desc_id_desc a c = true.
Proof.
  unfold by_date_desc_id_desc. intros H1 H2.
  destruct (String.compare (s_date a) (s_date b)) eqn:Eab; [| discriminate |].
  - apply String.compare_eq_iff in Eab. rewrite Eab.
    destruct (String.compare (s_date b) (s_date c)); [|discriminate|reflexivity].
    apply Z.leb_le in H1, H2. apply Z.leb_le. lia.
  - destruct (String.compare (s_date b) (s_date c)) eqn:Ebc; [|discriminate|].
    + apply String.compare_eq_iff in Ebc. rewrite <- Ebc. now rewrite Eab.
    + apply string_compare_gt_lt in Eab, Ebc.
      rewrite (proj2 (string_compare_gt_lt (s_date a) (s_date c)));
        [reflexivity|].
      now apply (string_compare_lt_trans _ (s_date b)).
Qed.

Lemma StronglySorted_impl {A} (R R' : A -> A -> Prop) l :
  (forall a b, R a b -> R' a b) -> StronglySorted R l -> StronglySorted R' l.
Proof.
  intros H. induction 1 as [|a l Hs IH Hall]; constructor; [exact IH|].
  eapply Forall_impl; [apply H | exact Hall].
Qed.

(** X22: [get_user_sessions] returns exactly the sessions of the user, the
    latest date first and, within a date, the highest id first. *)
Theorem get_user_sessions_latest_first d uid :
  (forall s, In s (get_user_sessions d uid) <->
             In s (sessions d) /\ s_user_id s = uid) /\
  StronglySorted
    (fun a b => String.ltb (s_date b) (s_date a) = true \/
                (s_date a = s_date b /\ s_id b <= s_id a))
    (get_user_sessions d uid).
Proof.
  unfold get_user_sessions. split.
  - intros s. now rewrite order_by_In, filter_In, Z.eqb_eq.
  - apply (StronglySorted_impl (fun a b => by_date_desc_id_desc a b = true)).
    + intros a b. unfold by_date_desc_id_desc, String.ltb.
      destruct (String.compare (s_date a) (s_date b)) eqn:E.
      * apply String.compare_eq_iff in E. intros H. right.
        split; [exact E | now apply Z.leb_le].
      * discriminate.
      * intros _. left. apply string_compare_gt_lt in E. now rewrite E.
    + apply order_by_sorted.
      * apply by_date_desc_id_desc_total.
      * apply by_date_desc_id_desc_trans.
Qed.

(** X23: [get_categories] lists every category once, in the order of the
    names. *)
Theorem get_categories_sorted d :
  Permutation (get_categories d) (categories d) /\
  StronglySorted (fun a b => String.leb (c_name a) (c_name b) = true)
    (get_categories d).
Proof.
  unfold get_categories. split; [apply order_by_perm|].
  apply (order_by_sorted by_category_name).
  - intros a b. apply String.leb_total.
  - intros a b c. apply string_leb_trans.
Qed.

Lemma by_name_number_total a b :
  by_name_number a b = true \/ by_name_number b a = true.
Proof.
  unfold by_name_number.
  rewrite (String.compare_antisym (ss_exercise_name b) (ss_exercise_name a)).
  destruct (String.compare (ss_exercise_name a) (ss_exercise_name b));
    simpl; auto.
  destruct (Z.leb_spec (ws_set_number (ss_set a)) (ws_set_number (ss_set b)));
    [auto|].
  right. apply Z.leb_le. lia.
Qed.

Lemma by_name_number_trans a b c :
  by_name_number a b = true -> by_name_number b c = true ->
  by_name_number a c = true.
Proof.
  unfold by_name_number. intros H1 H2.
  destruct (String.compare (ss_exercise_name a) (ss_exercise_name b)) eqn:Eab;
    [| | discriminate].
  - apply String.compare_eq_iff in Eab. rewrite Eab.
    destruct (String.compare (ss_exercise_name b) (ss_exercise_name c));
      [|reflexivity|discriminate].
    apply Z.leb_le in H1, H2. apply Z.leb_le. lia.
  - destruct (String.compare (ss_exercise_name b) (ss_exercise_name c)) eqn:Ebc;
      [| |discriminate].
    + apply String.compare_eq_iff in Ebc. rewrite <- Ebc. now rewrite Eab.
    + now rewrite (string_compare_lt_trans _ _ _ Eab Ebc).
Qed.

(** X24: [get_workout_sets_by_session] returns exactly the stored sets of the
    session whose exercise row exists, with that exercise's name, ordered by
    exercise name and, within an exercise, by set number. *)
Theorem get_workout_sets_by_session_scope d session_id :
  (forall r,
     In r (get_workout_sets_by_session d session_id) <->
     In (ss_set r) (workout_sets d) /\
     ws_session_id (ss_set r) = session_id /\
     exists e, In e (exercises d) /\ e_id e = ws_exercise_id (ss_set r) /\
               ss_exercise_name r = e_name e) /\
  StronglySorted
    (fun a b =>
       String.ltb (ss_exercise_name a) (ss_exercise_name b) = true \/
       (ss_exercise_name a = ss_exercise_name b /\
        ws_set_number (ss_set a) <= ws_set_number (ss_set b)))
    (get_workout_sets_by_session d session_id).
Proof.
  unfold get_workout_sets_by_session. split.
  - intros r. rewrite order_by_In, filter_In, Z.eqb_eq.
    unfold join_session_sets. rewrite in_flat_map. split.
    + intros [[ws [Hws Hr]] Hs]. rewrite in_flat_map in Hr.
      destruct Hr as [e [He Hr]].
      destruct (ws_exercise_id ws =? e_id e) eqn:E; [|contradiction].
      destruct Hr as [<-|[]]. simpl in *. apply Z.eqb_eq in E.
      split; [exact Hws|]. split; [exact Hs|]. exists e. auto.
    + intros [Hws [Hs [e [He [Ee Hn]]]]]. split; [|exact Hs].
      exists (ss_set r). split; [exact Hws|]. rewrite in_flat_map.
      exists e. split; [exact He|]. rewrite <- Ee, Z.eqb_refl. left.
      destruct r; simpl in *. now subst.
  - apply (StronglySorted_impl (fun a b => by_name_number a b = true)).
    + intros a b. unfold by_name_number, String.ltb.
      destruct (String.compare (ss_exercise_name a) (ss_exercise_name b)) eqn:E.
      * apply String.compare_eq_iff in E. intros H. right.
        split; [exact E | now apply Z.leb_le].
      * intros _. now left.
      * discriminate.
    + apply order_by_sorted.
      * apply by_name_number_total.
      * apply by_name_number_trans.
Qed.

(** ** Searching by name *)

Lemma sql_like_percent pattern s :
  sql_like (String "%" pattern) s =
  sql_like pattern s
  || match s with
     | EmptyString => false
     | String _ s' => sql_like (String "%" pattern) s'
     end.
Proof. destruct s; reflexivity. Qed.

Lemma sql_like_char p pattern s :
  Ascii.eqb p "%" = false ->
  sql_like (String p pattern) s =
  match s with
  | EmptyString => false
  | String c s' =>
      (Ascii.eqb p "_" || Ascii.eqb (ascii_lower p) (ascii_lower c))
      && sql_like pattern s'
  end.
Proof. intros H. simpl. now rewrite H. Qed.

Lemma sql_like_any s : sql_like "%" s = true.
Proof.
  induction s as [|c s IH]; rewrite sql_like_percent; [reflexivity|].
  rewrite IH. apply orb_true_r.
Qed.

Lemma sql_like_skip pattern pre s :
  sql_like pattern s = true ->
  sql_like (String "%" pattern) (pre ++ s) = true.
Proof.
  intros H. induction pre as [|c pre IH]; rewrite sql_like_percent;
    cbn [String.append].
  - now rewrite H.
  - rewrite IH. apply orb_true_r.
Qed.

Lemma sql_like_prefix t s post :
  string_lower t = string_lower s ->
  sql_like (t ++ "%") (s ++ post) = true.
Proof.
  revert s. induction t as [|a t IH]; intros s Hlow.
  - destruct s; [|discriminate]. simpl String.append. apply sql_like_any.
  - destruct s as [|c s]; [discriminate|]. simpl in Hlow.
    injection Hlow as Hc Hrest.
    change ((String a t ++ "%")%string) with (String a (t ++ "%")).
    change ((String c s ++ post)%string) with (String c (s ++ post)).
    destruct (Ascii.eqb a "%") eqn:Ea.
    + apply Ascii.eqb_eq in Ea. subst a.
      rewrite sql_like_percent.
      pose proof (sql_like_skip (t ++ "%") EmptyString (s ++ post)
                    (IH s Hrest)) as H2.
      cbn [String.append] in H2. rewrite H2. apply orb_true_r.
    + rewrite (sql_like_char _ _ _ Ea), Hc, Ascii.eqb_refl, orb_true_r.
      simpl. now apply IH.
Qed.

(** X25: Searching for a piece of an exercise name in any letter case finds the
    exercise: a search term that equals, apart from the case of ASCII
    letters, some part of the name makes [get_exercises] (without category
    filter) return the exercise.  In particular the name itself finds
    it. *)
Theorem search_finds_name_part d e search_term before part after :
  In e (exercises d) ->
  e_name e = (before ++ part ++ after)%string ->
  string_lower search_term = string_lower part ->
  name_like search_term e = true /\
  In e (get_exercises d None search_term) /\
  In e (search_exercises d [] search_term) /\
  In e (get_exercises d None (e_name e)).
Proof.
  intros He Hname Hlow.
  assert (Hlike : forall t b p a,
            e_name e = (b ++ p ++ a)%string ->
            string_lower t = string_lower p -> name_like t e = true).
  { intros t b p a Hn Hl. unfold name_like. rewrite Hn.
    change (("%" ++ t ++ "%")%string) with (String "%" (t ++ "%")).
    apply sql_like_skip. now apply sql_like_prefix. }
  assert (Hin : forall t, name_like t e = true ->
                          In e (get_exercises d None t)).
  { intros t Ht. apply get_exercises_In. split; [exact He|].
    split; [exact I|]. now destruct t. }
  pose proof (Hlike _ _ _ _ Hname Hlow) as H1.
  split; [exact H1|]. split; [now apply Hin|]. split; [now apply Hin|].
  apply Hin. apply (Hlike (e_name e) EmptyString (e_name e) EmptyString);
    [|reflexivity].
  simpl. clear. induction (e_name e) as [|c s IH]; simpl; [reflexivity|].
  now rewrite <- IH.
Qed.

Lemma search_finds_name_part_witness :
  let e := {| e_id := 2; e_name := "Bench Press"; e_description := "" |} in
  name_like "ch pr" e = true /\
  In e (get_exercises demo_db None "ch pr") /\
  In e (search_exercises demo_db [] "ch pr") /\
  In e (get_exercises demo_db None (e_name e)).
Proof.
  intros e.
  apply (search_finds_name_part demo_db e "ch pr" "Ben" "ch Pr" "ess").
  - simpl. auto.
  - reflexivity.
  - reflexivity.
Defined.

(** ** The maximum of a 1RM series *)

Lemma Qc_leb_le a b : Qc_leb a b = true <-> (a <= b)%Qc.
Proof.
  unfold Qc_leb, Qcle, Qccompare. rewrite Qle_alt.
  destruct (this a ?= this b)%Q; split; congruence.
Qed.

Lemma Qc_leb_refl a : Qc_leb a a = true.
Proof. apply Qc_leb_le, Qcle_refl. Qed.

Lemma Qc_leb_trans a b c :
  Qc_leb a b = true -> Qc_leb b c = true -> Qc_leb a c = true.
Proof. rewrite !Qc_leb_le. apply Qcle_trans. Qed.

Lemma Qc_leb_total a b : Qc_leb a b = true \/ Qc_leb b a = true.
Proof.
  rewrite !Qc_leb_le. destruct (Qclt_le_dec a b) as [H|H]; [left | now right].
  now apply Qclt_le_weak.
Qed.

Lemma float_leb_trans a b c :
  float_leb a b = true -> float_leb b c = true -> float_leb a c = true.
Proof.
  destruct a, b, c; simpl; try congruence. apply Qc_leb_trans.
Qed.

Lemma float_max_spec a b :
  a <> NaN -> b <> NaN ->
  (float_max a b = a \/ float_max a b = b) /\
  float_leb a (float_max a b) = true /\
  float_leb b (float_max a b) = true.
Proof.
  intros Ha Hb. destruct a as [x| | |], b as [y| | |]; try congruence;
    simpl; auto using Qc_leb_refl.
  destruct (Qc_leb x y) eqn:E; simpl; rewrite ?Qc_leb_refl; auto.
  destruct (Qc_leb_total x y) as [H|H]; [congruence | auto].
Qed.

Lemma series_max_best xs :
  xs <> [] -> (forall x, In x xs -> x <> NaN) ->
  In (series_max xs) xs /\
  forall x, In x xs -> float_leb x (series_max xs) = true.
Proof.
  induction xs as [|a xs IH]; intros Hne Hnan; [congruence|].
  assert (Ha : a <> NaN) by (apply Hnan; now left).
  destruct xs as [|b xs].
  - simpl. assert (E : float_max a NaN = a) by now destruct a.
    rewrite E. split; [now left|]. intros x [<-|[]].
    destruct a; try congruence; simpl; auto using Qc_leb_refl.
  - destruct IH as [Hin Hle]; [discriminate | intros x Hx; apply Hnan; now right|].
    set (m := series_max (b :: xs)) in *.
    change (series_max (a :: b :: xs)) with (float_max a m).
    assert (Hm : m <> NaN) by (apply Hnan; now right).
    destruct (float_max_spec a m Ha Hm) as [Hcase [Hla Hlm]].
    split.
    + destruct Hcase as [->| ->]; [now left | now right].
    + intros x [<-|Hx]; [exact Hla|].
      eapply float_leb_trans; [apply Hle, Hx | exact Hlm].
Qed.

Lemma report_by_session_details d sid r :
  report_by_session d sid = Some r ->
  details r =
    map (fun g =>
           {| ex_name := fst g;
              ex_sets := List.length (snd g);
              ex_reps := sum_Z (map ss_reps (snd g));
              ex_volume_load :=
                sum_Qc (map (fun r => volume_load (ss_weight r) (ss_reps r))
                          (snd g));
              ex_1rm :=
                series_max (map (fun r => one_rm (ss_weight r) (ss_reps r))
                              (snd g)) |})
      (group_by ss_exercise_name (get_workout_sets_by_session d sid)).
Proof.
  unfold report_by_session.
  destruct (get_workout_sets_by_session d sid) as [|r0 frame];
    [discriminate|].
  intros H. injection H as <-. cbv beta iota delta [details].
  apply map_ext. now intros [name group].
Qed.

(** X26: The "Est. 1RM" shown for an exercise of a session is the best of its
    sets, as long as each of those sets has fewer than 37 reps: it is the
    estimated one-rep max of one of the exercise's sets in the session, and
    no set of that exercise in the session has a higher one. *)
Theorem session_est_1rm_is_best_set d selected_session_id r x :
  report_by_session d selected_session_id = Some r ->
  In x (details r) ->
  let frame := get_workout_sets_by_session d selected_session_id in
  (forall row, In row frame -> ss_exercise_name row = ex_name x ->
               ss_reps row < 37) ->
  (exists row, In row frame /\ ss_exercise_name row = ex_name x /\
               ex_1rm x = one_rm (ss_weight row) (ss_reps row)) /\
  (forall row, In row frame -> ss_exercise_name row = ex_name x ->
     float_leb (one_rm (ss_weight row) (ss_reps row)) (ex_1rm x) = true).
Proof.
  intros Hrep Hx frame Hreps. apply report_by_session_details in Hrep.
  fold frame in Hrep. rewrite Hrep in Hx. apply in_map_iff in Hx.
  destruct Hx as [[k g] [<- Hg]]. cbn [fst snd ex_name ex_1rm] in *.
  unfold group_by in Hg. apply in_map_iff in Hg.
  destruct Hg as [k' [E Hk]]. injection E as -> <-.
  apply order_by_In in Hk.
  apply distinct_In in Hk; [|intros a b; apply String.eqb_eq].
  apply in_map_iff in Hk. destruct Hk as [row0 [Hname0 Hrow0]].
  set (group := filter (fun r => String.eqb (ss_exercise_name r) k) frame) in *.
  assert (Hgroup : forall row, In row group <->
                     In row frame /\ ss_exercise_name row = k).
  { intros row. unfold group. now rewrite filter_In, String.eqb_eq. }
  set (f := fun r => one_rm (ss_weight r) (ss_reps r)).
  destruct (series_max_best (map f group)) as [Hin Hle].
  - intros E. apply map_eq_nil in E.
    assert (H0 : In row0 group) by (apply Hgroup; auto).
    rewrite E in H0. exact H0.
  - intros v Hv. apply in_map_iff in Hv. destruct Hv as [row [<- Hrow]].
    apply Hgroup in Hrow. destruct Hrow as [Hrow Hn].
    unfold f. rewrite (one_rm_below_37 _ _ (Hreps row Hrow Hn)). discriminate.
  - split.
    + apply in_map_iff in Hin. destruct Hin as [row [E Hrow]].
      apply Hgroup in Hrow. exists row. destruct Hrow. auto.
    + intros row Hrow Hn. apply Hle. apply (in_map f). apply Hgroup. auto.
Qed.

Lemma session_est_1rm_is_best_set_witness :
  let d := saved [(1, [(Z2Qc 80, 5, 7); (Z2Qc 100, 5, 8)])] in
  exists r x,
    report_by_session d 1 = Some r /\ In x (details r) /\
    exists row, In row (get_workout_sets_by_session d 1) /\
                ss_exercise_name row = ex_name x /\
                ex_1rm x = one_rm (ss_weight row) (ss_reps row).
Proof.
  intros d. eexists. eexists.
  split; [reflexivity|]. split; [left; reflexivity|].
  refine (proj1 (session_est_1rm_is_best_set d 1 _ _ eq_refl
                   (or_introl eq_refl) _)).
  intros row Hrow _. vm_compute in Hrow.
  destruct Hrow as [<-|[<-|[]]]; reflexivity.
Defined.
